(** * libfreelan: IP network addresses (CIDR) -- containment, parsing, printing

    Shallow embedding of [include/freelan/ip_network_address.hpp] and
    [src/ip_network_address.cpp].  The C++ template parameter [AddressType]
    (instantiated with boost's [address_v4] and [address_v6]) becomes a type
    class; [std::istream] becomes a record holding the unread characters and
    the three state bits; the stream extraction operators return an explicit
    outcome, since the constructor arguments they evaluate may throw. *)

From Stdlib Require Import ZArith NArith List String Ascii Bool Lia.
From Stdlib Require Import Strings.Byte.
From Stdlib Require Import DecimalString DecimalN HexadecimalString.
From Stdlib Require Import Permutation.
Import ListNotations.

Local Open Scope string_scope.

(** ** Strings *)

Fixpoint string_forall (p : ascii -> bool) (s : string) : bool :=
  match s with
  | EmptyString => true
  | String c r => p c && string_forall p r
  end.

(** ** std::istream *)

Module Stream.

(** The unread part of the underlying buffer and the [iostate] bits. *)
Record istream : Type := mk_istream {
  rdbuf : string;
  eofbit : bool;
  failbit : bool;
  badbit : bool
}.

(** [std::istringstream iss(text)]: a fresh stream on [text]. *)
Definition istringstream (text : string) : istream :=
  mk_istream text false false false.

Definition good (ist : istream) : bool :=
  negb (eofbit ist || failbit ist || badbit ist).

Definition fail (ist : istream) : bool :=
  failbit ist || badbit ist.

(** [if (is)]: the conversion to bool is [!fail()]. *)
Definition to_bool (ist : istream) : bool := negb (fail ist).

Definition setstate_failbit (ist : istream) : istream :=
  mk_istream (rdbuf ist) (eofbit ist) true (badbit ist).

Definition setstate_eofbit (ist : istream) : istream :=
  mk_istream (rdbuf ist) true (failbit ist) (badbit ist).

(** [is.clear()]: the state becomes [goodbit]. *)
Definition clear (ist : istream) : istream :=
  mk_istream (rdbuf ist) false false false.

(** [is.peek()] on a good stream: the next character, unconsumed; at the end
    of the input [eofbit] is set and EOF ([None]) is returned. *)
Definition peek (ist : istream) : option ascii * istream :=
  match rdbuf ist with
  | EmptyString => (None, setstate_eofbit ist)
  | String c _ => (Some c, ist)
  end.

(** [is.ignore()] on a good stream: drops one character. *)
Definition ignore (ist : istream) : istream :=
  match rdbuf ist with
  | EmptyString => setstate_eofbit ist
  | String _ r => mk_istream r (eofbit ist) (failbit ist) (badbit ist)
  end.

End Stream.
Export Stream.

(** ** The address types (boost::asio::ip) *)

(** What the templates use of [AddressType]: [bytes_type] and [to_bytes()],
    [to_string()], [from_string()] ([None] where boost reports an error: the
    throwing overload raises [system_error]), and equality.
    [is_ip_address_character] is the set of characters [read_ip_address]
    accepts for the family. *)
Class AddressType (A : Type) : Type := {
  bytes_size : nat;
  to_bytes : A -> list byte;
  to_string : A -> string;
  from_string : string -> option A;
  address_eqb : A -> A -> bool;
  any_address : A;
  is_ip_address_character : ascii -> bool
}.

(** What the templates rely on in an address type: a byte array of fixed
    width, and a textual form that [from_string] reads back and that is
    written with the characters [read_ip_address] accepts, the [/] not being
    one of them.  Both instantiations keep these laws ([address_v4_laws],
    [address_v6_laws]). *)
Class AddressTypeLaws (A : Type) `{AddressType A} : Prop := {
  to_bytes_size : forall a : A, List.length (to_bytes a) = bytes_size;
  from_string_to_string : forall a : A, from_string (to_string a) = Some a;
  to_string_characters :
    forall a : A, string_forall is_ip_address_character (to_string a) = true;
  slash_is_not_an_address_character : is_ip_address_character "/" = false
}.

(** ** base_ip_network_address<AddressType> *)

Record base_ip_network_address (A : Type) : Type := make_network_address {
  address : A;
  prefix_length : N
}.
Arguments make_network_address {A} _ _.
Arguments address {A} _.
Arguments prefix_length {A} _.

(** [unsigned int] is 32 bits wide. *)
Definition UINT_MAX : N := 4294967295.

Definition byte_val (b : byte) : Z := Z.of_N (Byte.to_N b).

(** [bytes[i]] of a [std::array]; the index is in range wherever the loop
    below reads it, both arrays having the size of the address type. *)
Definition at_index (bytes : list byte) (i : nat) : byte := nth i bytes x00.

(** The [for] loop of [has_address]: [todo] iterations are left and [i] is the
    index, so that [todo = network_bytes.size() - i]. *)
Fixpoint has_address_for (network_bytes addr_bytes : list byte)
    (todo i : nat) (prefix_len : N) : bool :=
  match todo with
  | O => true
  | S todo' =>
      if (8 <=? prefix_len)%N then
        if negb (Byte.eqb (at_index network_bytes i) (at_index addr_bytes i))
        then false
        else has_address_for network_bytes addr_bytes todo' (S i) (prefix_len - 8)
      else
        let mask := Z.lxor (Z.shiftr 255 (Z.of_N prefix_len)) 255 in
        if negb (Z.land (byte_val (at_index network_bytes i)) mask
                 =? Z.land (byte_val (at_index addr_bytes i)) mask)%Z
        then false
        else true
  end.

Definition has_address_bytes (network_bytes addr_bytes : list byte)
    (prefix_len : N) : bool :=
  has_address_for network_bytes addr_bytes (List.length network_bytes) 0 prefix_len.

Section BaseNetworkAddress.
Context {A : Type} `{AddressType A}.

(** [base_ip_network_address::has_address]. *)
Definition has_address (ina : base_ip_network_address A) (addr : A) : bool :=
  has_address_bytes (to_bytes (address ina)) (to_bytes addr) (prefix_length ina).


(** The default constructor, and [null()]. *)
Definition null : base_ip_network_address A :=
  make_network_address any_address 0%N.


End BaseNetworkAddress.

(** The containment test as the specification words it: a remaining-bits
    counter, whole bytes while it is at least 8, then the top [remaining] bits
    under the mask [0xFF << (8 - remaining)], and [true] once it is 0. *)
Fixpoint contains_spec (self probe : list byte) (remaining : N) : bool :=
  match self, probe with
  | s :: self', p :: probe' =>
      if (8 <=? remaining)%N then
        if Byte.eqb s p then contains_spec self' probe' (remaining - 8) else false
      else if (1 <=? remaining)%N then
        let mask := Z.shiftl 255 (8 - Z.of_N remaining) in
        (Z.land (byte_val s) mask =? Z.land (byte_val p) mask)%Z
      else true
  | _, _ => true
  end.

(** ** stream_operations.hpp

    The header declares [putback], [read_ip_address] and [read_prefix_length]
    and documents each in one line; their bodies are in another translation
    unit of the library. *)

(** Modelled from the spec: the body of [putback] (only its declaration,
    "Put back some characters in an input stream", is in
    [stream_operations.hpp]).  The characters become the next ones to be read
    again, which is the explicit position restore the specification asks
    for; the state bits are left to the caller. *)
Definition putback (ist : istream) (str : string) : istream :=
  mk_istream (str ++ rdbuf ist) (eofbit ist) (failbit ist) (badbit ist).

(** The run of leading characters of [buf] that satisfy [accept], the rest of
    the buffer, and whether the end of the input was met while looking for the
    next character (which sets [eofbit]). *)
Fixpoint read_while (accept : ascii -> bool) (buf : string)
    : string * string * bool :=
  match buf with
  | EmptyString => (EmptyString, EmptyString, true)
  | String c r =>
      if accept c then
        let '(token, rest, eof) := read_while accept r in
        (String c token, rest, eof)
      else (EmptyString, buf, false)
  end.

Definition is_digit (c : ascii) : bool :=
  let n := N_of_ascii c in ((48 <=? n) && (n <=? 57))%N.

Section StreamOperations.
Context {A : Type} `{AddressType A}.

(** Modelled from the spec: the body of [read_ip_address<AddressType>] (only
    its declaration is in [stream_operations.hpp]).  The host-address
    portion is the run of characters of the family's textual form; it must
    be accepted by the family's [from_string] (else the address is
    malformed); on failure the position is restored and [failbit] set, and
    [ip_address] is left as it was. *)
Definition read_ip_address (ist : istream) (ip_address : string)
    : istream * string :=
  if good ist then
    let '(token, rest, eof) := read_while is_ip_address_character (rdbuf ist) in
    let ist1 := mk_istream rest eof false false in
    match from_string token with
    | Some _ => (ist1, token)
    | None => (setstate_failbit (putback ist1 token), ip_address)
    end
  else (ist, ip_address).

(** Modelled from the spec: the body of [read_prefix_length<AddressType>]
    (only its declaration is in [stream_operations.hpp]).  The prefix length
    is [decimal-digit+], a non-negative decimal integer; no range is
    imposed on it.  On failure the position is restored and [failbit]
    set. *)
Definition read_prefix_length (ist : istream) (prefix_length : string)
    : istream * string :=
  if good ist then
    let '(token, rest, eof) := read_while is_digit (rdbuf ist) in
    let ist1 := mk_istream rest eof false false in
    match token with
    | String _ _ => (ist1, token)
    | EmptyString => (setstate_failbit (putback ist1 token), prefix_length)
    end
  else (ist, prefix_length).

End StreamOperations.

(** ** src/ip_network_address.cpp *)

(** What [boost::lexical_cast<unsigned int>] makes of a string of decimal
    digits: its value, or [None] ([bad_lexical_cast]) for the empty string,
    for a character that is no digit, and for a value above [UINT_MAX]. *)
Definition lexical_cast_unsigned_int (s : string) : option N :=
  match DecimalString.NilZero.uint_of_string s with
  | Some d => let n := N.of_uint d in if (n <=? UINT_MAX)%N then Some n else None
  | None => None
  end.

(** [os << std::dec << n] for an [unsigned int]. *)
Definition dec (n : N) : string := DecimalString.NilZero.string_of_uint (N.to_uint n).

Inductive exception : Type :=
| system_error
| bad_lexical_cast.

(** How a stream extraction ends: it returns, or an exception leaves it; in
    both cases the caller holds the stream and the value as they then are. *)
Inductive outcome (V : Type) : Type :=
| Returned (ist : istream) (value : V)
| Thrown (e : exception) (ist : istream) (value : V).
Arguments Returned {V} _ _.
Arguments Thrown {V} _ _ _.

Definition stream_of {V : Type} (o : outcome V) : istream :=
  match o with Returned ist _ | Thrown _ ist _ => ist end.

Definition value_of {V : Type} (o : outcome V) : V :=
  match o with Returned _ v | Thrown _ _ v => v end.

Definition is_slash (c : option ascii) : bool :=
  match c with
  | Some c => Ascii.eqb c "/"
  | None => false
  end.

Section BaseStreamOperators.
Context {A : Type} `{AddressType A}.

(** [read_ip_address_prefix_length<AddressType>].  The condition
    [is.good() && (is.peek() == '/')] peeks only on a good stream. *)
Definition read_ip_address_prefix_length
    (ist : istream) (ip_address prefix_length : string)
    : istream * string * string :=
  if good ist then
    let '(ist1, ip_address1) := read_ip_address (A := A) ist ip_address in
    if to_bool ist1 then
      let '(slash, ist2) :=
        if good ist1 then let '(c, ist') := peek ist1 in (is_slash c, ist')
        else (false, ist1) in
      if slash then
        let ist3 := ignore ist2 in
        let '(ist4, prefix_length1) :=
          read_prefix_length ist3 prefix_length in
        if negb (to_bool ist4) then
          (setstate_failbit (putback ist4 (ip_address1 ++ "/")),
           ip_address1, prefix_length1)
        else (ist4, ip_address1, prefix_length1)
      else
        (setstate_failbit (putback ist2 ip_address1),
         ip_address1, prefix_length)
    else (ist1, ip_address1, prefix_length)
  else (ist, ip_address, prefix_length).

(** [operator>>(std::istream&, base_ip_network_address<AddressType>&)].
    The two constructor arguments are evaluated before the assignment; C++
    leaves their order open, and the address is taken first here. *)
Definition op_extract_base (ist : istream) (value : base_ip_network_address A)
    : outcome (base_ip_network_address A) :=
  let '(ist1, ip_address, prefix_length) :=
    read_ip_address_prefix_length ist EmptyString EmptyString in
  if to_bool ist1 then
    match from_string ip_address with
    | None => Thrown system_error ist1 value
    | Some a =>
        match lexical_cast_unsigned_int prefix_length with
        | None => Thrown bad_lexical_cast ist1 value
        | Some n => Returned ist1 (make_network_address a n)
        end
    end
  else Returned ist1 value.

(** [operator<<(std::ostream&, const base_ip_network_address<AddressType>&)];
    the output stream is the text written so far. *)
Definition op_insert_base (os : string) (value : base_ip_network_address A)
    : string :=
  os ++ to_string (address value) ++ "/" ++ dec (prefix_length value).

End BaseStreamOperators.

(** [format(v)]: what [operator<<] writes on an empty output. *)
Definition format {A : Type} `{AddressType A}
    (v : base_ip_network_address A) : string :=
  op_insert_base EmptyString v.

(** ** The membership helper, [has_address(begin, end, addr)]

    The iterator range is the list of the elements between [begin] and [end];
    [contains] is the overload of [has_address] the element type selects. *)
Section Range.
Context {NetworkAddress Address : Type}.
Variable contains : NetworkAddress -> Address -> bool.

Fixpoint has_address_range (range : list NetworkAddress) (addr : Address)
    : bool :=
  match range with
  | [] => false
  | ina :: range' =>
      if contains ina addr then true else has_address_range range' addr
  end.

(** The same loop, which also records the elements it has called
    [has_address] on, in the order of the calls. *)
Fixpoint has_address_range_calls (range : list NetworkAddress)
    (addr : Address) : bool * list NetworkAddress :=
  match range with
  | [] => (false, [])
  | ina :: range' =>
      if contains ina addr then (true, [ina])
      else
        let '(found, calls) := has_address_range_calls range' addr in
        (found, ina :: calls)
  end.

End Range.

(** ** boost::asio::ip::address_v4 and address_v6

    The two address types the library instantiates the template with, in
    their standard textual forms: dotted decimal, and colon-separated groups
    of hexadecimal digits with the longest run of zero groups written [::].
    The scope identifier of an IPv6 address and the forms that embed a
    dotted-decimal IPv4 address in an IPv6 text are left out. *)

(** The fields of [s] between the occurrences of [sep]. *)
Fixpoint split_on (sep : ascii) (s : string) : list string :=
  match s with
  | EmptyString => [EmptyString]
  | String c r =>
      if Ascii.eqb c sep then EmptyString :: split_on sep r
      else
        match split_on sep r with
        | f :: fs => String c f :: fs
        | [] => [String c EmptyString]
        end
  end.

Fixpoint join (sep : string) (fields : list string) : string :=
  match fields with
  | [] => EmptyString
  | [f] => f
  | f :: fs => f ++ sep ++ join sep fs
  end.

Fixpoint option_all {T : Type} (l : list (option T)) : option (list T) :=
  match l with
  | [] => Some []
  | Some x :: l' =>
      match option_all l' with
      | Some xs => Some (x :: xs)
      | None => None
      end
  | None :: _ => None
  end.

Module V4.

Inductive address_v4 : Type :=
| make_address_v4 (b0 b1 b2 b3 : byte).

Definition to_bytes_v4 (a : address_v4) : list byte :=
  let '(make_address_v4 b0 b1 b2 b3) := a in [b0; b1; b2; b3].

Definition to_string_v4 (a : address_v4) : string :=
  join "." (map (fun b => dec (Byte.to_N b)) (to_bytes_v4 a)).

(** One to three digits, no leading zero, at most 255. *)
Definition parse_octet (s : string) : option byte :=
  if string_forall is_digit s && (String.length s <=? 3)%nat
     && negb (String.prefix "0" s && (2 <=? String.length s)%nat)
  then
    match lexical_cast_unsigned_int s with
    | Some n => Byte.of_N n
    | None => None
    end
  else None.

Definition from_string_v4 (s : string) : option address_v4 :=
  match option_all (map parse_octet (split_on "." s)) with
  | Some [b0; b1; b2; b3] => Some (make_address_v4 b0 b1 b2 b3)
  | _ => None
  end.

Definition eqb_v4 (a b : address_v4) : bool :=
  forallb (fun p => Byte.eqb (fst p) (snd p))
          (combine (to_bytes_v4 a) (to_bytes_v4 b)).

Definition is_character_v4 (c : ascii) : bool :=
  is_digit c || Ascii.eqb c ".".

End V4.
Export V4.

#[export] Instance address_v4_type : AddressType address_v4 := {|
  bytes_size := 4;
  to_bytes := to_bytes_v4;
  to_string := to_string_v4;
  from_string := from_string_v4;
  address_eqb := eqb_v4;
  any_address := make_address_v4 x00 x00 x00 x00;
  is_ip_address_character := is_character_v4
|}.

Module V6.

(** A group of 16 bits: two bytes of the address, the high one first. *)
Definition hextet : Type := (byte * byte)%type.

Inductive address_v6 : Type :=
| make_address_v6 (h0 h1 h2 h3 h4 h5 h6 h7 : hextet).

Definition hextets (a : address_v6) : list hextet :=
  let '(make_address_v6 h0 h1 h2 h3 h4 h5 h6 h7) := a in
  [h0; h1; h2; h3; h4; h5; h6; h7].

Definition to_bytes_v6 (a : address_v6) : list byte :=
  flat_map (fun h : hextet => [fst h; snd h]) (hextets a).

Definition hextet_value (h : hextet) : N :=
  (256 * Byte.to_N (fst h) + Byte.to_N (snd h))%N.

Definition hextet_of_value (n : N) : option hextet :=
  match Byte.of_N (n / 256), Byte.of_N (n mod 256) with
  | Some hi, Some lo => Some (hi, lo)
  | _, _ => None
  end.

(** Lower-case hexadecimal, no leading zeros. *)
Definition hex (n : N) : string :=
  HexadecimalString.NilZero.string_of_uint (N.to_hex_uint n).

Definition hex_digit_value (c : ascii) : option N :=
  let n := N_of_ascii c in
  if ((48 <=? n) && (n <=? 57))%N then Some (n - 48)%N
  else if ((97 <=? n) && (n <=? 102))%N then Some (n - 87)%N
  else if ((65 <=? n) && (n <=? 70))%N then Some (n - 55)%N
  else None.

Definition is_hex_digit (c : ascii) : bool :=
  match hex_digit_value c with Some _ => true | None => false end.

Fixpoint hex_value (acc : N) (s : string) : option N :=
  match s with
  | EmptyString => Some acc
  | String c r =>
      match hex_digit_value c with
      | Some d => hex_value (16 * acc + d) r
      | None => None
      end
  end.

(** One to four hexadecimal digits. *)
Definition parse_hextet (s : string) : option hextet :=
  if ((1 <=? String.length s) && (String.length s <=? 4))%nat then
    match hex_value 0 s with
    | Some n => hextet_of_value n
    | None => None
    end
  else None.

Definition is_zero (h : hextet) : bool := (hextet_value h =? 0)%N.

(** The length of the run of zero groups that [groups] starts with. *)
Fixpoint zero_run (groups : list hextet) : nat :=
  match groups with
  | h :: groups' => if is_zero h then S (zero_run groups') else O
  | [] => O
  end.

(** The leftmost longest run of zero groups, as (start, length); the start
    is counted from the head of [groups]. *)
Fixpoint longest_zero_run (groups : list hextet) : nat * nat :=
  match groups with
  | [] => (O, O)
  | _ :: groups' =>
      let here := zero_run groups in
      let '(start, len) := longest_zero_run groups' in
      if (len <=? here)%nat then (O, here) else (S start, len)
  end.

Definition to_string_v6 (a : address_v6) : string :=
  let groups := hextets a in
  let text := fun g => join ":" (map (fun h => hex (hextet_value h)) g) in
  let '(start, len) := longest_zero_run groups in
  if (2 <=? len)%nat then
    text (firstn start groups) ++ "::" ++ text (skipn (start + len) groups)
  else text groups.

(** The text before and the text after the first [::] of [s]. *)
Fixpoint split_double_colon (s : string) : option (string * string) :=
  match s with
  | EmptyString => None
  | String c r =>
      match r with
      | String c' r' =>
          if Ascii.eqb c ":" && Ascii.eqb c' ":" then Some (EmptyString, r')
          else
            match split_double_colon r with
            | Some (before, after) => Some (String c before, after)
            | None => None
            end
      | EmptyString => None
      end
  end.

Definition parse_groups (s : string) : option (list hextet) :=
  match s with
  | EmptyString => Some []
  | _ => option_all (map parse_hextet (split_on ":" s))
  end.

Definition address_of_groups (groups : list hextet) : option address_v6 :=
  match groups with
  | [h0; h1; h2; h3; h4; h5; h6; h7] =>
      Some (make_address_v6 h0 h1 h2 h3 h4 h5 h6 h7)
  | _ => None
  end.

Definition from_string_v6 (s : string) : option address_v6 :=
  match split_double_colon s with
  | Some (before, after) =>
      match parse_groups before, parse_groups after with
      | Some pre, Some post =>
          let given := (List.length pre + List.length post)%nat in
          if (given <=? 7)%nat then
            address_of_groups
              (pre ++ repeat (x00, x00) (8 - given) ++ post)
          else None
      | _, _ => None
      end
  | None =>
      match option_all (map parse_hextet (split_on ":" s)) with
      | Some groups => address_of_groups groups
      | None => None
      end
  end.

Definition eqb_v6 (a b : address_v6) : bool :=
  forallb (fun p => Byte.eqb (fst p) (snd p))
          (combine (to_bytes_v6 a) (to_bytes_v6 b)).

Definition is_character_v6 (c : ascii) : bool :=
  is_hex_digit c || Ascii.eqb c ":" || Ascii.eqb c ".".

End V6.
Export V6.

#[export] Instance address_v6_type : AddressType address_v6 := {|
  bytes_size := 16;
  to_bytes := to_bytes_v6;
  to_string := to_string_v6;
  from_string := from_string_v6;
  address_eqb := eqb_v6;
  any_address :=
    make_address_v6 (x00, x00) (x00, x00) (x00, x00) (x00, x00)
                    (x00, x00) (x00, x00) (x00, x00) (x00, x00);
  is_ip_address_character := is_character_v6
|}.

(** ** The generic IP type, [boost::variant] of the two instantiations *)

Definition ipv4_network_address : Type := base_ip_network_address address_v4.
Definition ipv6_network_address : Type := base_ip_network_address address_v6.

Inductive ip_network_address : Type :=
| ina_v4 (ina : ipv4_network_address)
| ina_v6 (ina : ipv6_network_address).

(** [boost::asio::ip::address]: an address of either family. *)
Inductive ip_address : Type :=
| address_of_v4 (a : address_v4)
| address_of_v6 (a : address_v6).

Definition is_v4 (addr : ip_address) : bool :=
  match addr with address_of_v4 _ => true | address_of_v6 _ => false end.

Definition is_v6 (addr : ip_address) : bool :=
  match addr with address_of_v4 _ => false | address_of_v6 _ => true end.

(** [to_v4()] and [to_v6()] throw [bad_cast] on the other family. *)
Definition to_v4 (addr : ip_address) : option address_v4 :=
  match addr with address_of_v4 a => Some a | address_of_v6 _ => None end.

Definition to_v6 (addr : ip_address) : option address_v6 :=
  match addr with address_of_v4 _ => None | address_of_v6 a => Some a end.

(** [ip_network_address_has_address_visitor], applied to the variant.  The
    [&&] evaluates its right operand only when the family test holds, so the
    conversion never throws. *)
Definition ip_network_address_has_address_visitor
    (m_addr : ip_address) (ina : ip_network_address) : bool :=
  match ina with
  | ina_v4 ina =>
      if is_v4 m_addr then
        match to_v4 m_addr with
        | Some a => has_address ina a
        | None => false
        end
      else false
  | ina_v6 ina =>
      if is_v6 m_addr then
        match to_v6 m_addr with
        | Some a => has_address ina a
        | None => false
        end
      else false
  end.

(** [has_address(const ip_network_address&, const AddressType&)]. *)
Definition has_address_ina (ina : ip_network_address) (addr : ip_address)
    : bool :=
  ip_network_address_has_address_visitor addr ina.

(** [operator<<(std::ostream&, const ip_network_address&)], through
    [ip_network_address_output_visitor]. *)
Definition op_insert (os : string) (value : ip_network_address) : string :=
  match value with
  | ina_v4 ina => op_insert_base os ina
  | ina_v6 ina => op_insert_base os ina
  end.

(** The second [if (is)] block of the operator below: the IPv4 attempt. *)
Definition op_extract_v4_block (ist : istream) (value : ip_network_address)
    : outcome ip_network_address :=
  if to_bool ist then
    match op_extract_base (A := address_v4) ist null with
    | Thrown e ist' _ => Thrown e ist' value
    | Returned ist' ina =>
        if to_bool ist' then Returned ist' (ina_v4 ina)
        else Returned (clear ist') value
    end
  else Returned ist value.

(** [operator>>(std::istream&, ip_network_address&)]. *)
Definition op_extract (ist : istream) (value : ip_network_address)
    : outcome ip_network_address :=
  if to_bool ist then
    match op_extract_base (A := address_v6) ist null with
    | Thrown e ist' _ => Thrown e ist' value
    | Returned ist' ina =>
        if to_bool ist' then Returned ist' (ina_v6 ina)
        else op_extract_v4_block (clear ist') value
    end
  else op_extract_v4_block ist value.

(** The active family of a variant. *)
Inductive family : Type := IPv4 | IPv6.

Definition family_of (ina : ip_network_address) : family :=
  match ina with ina_v4 _ => IPv4 | ina_v6 _ => IPv6 end.

(** ** Notions the properties are stated with *)

Definition is_not (sep : ascii) (c : ascii) : bool := negb (Ascii.eqb c sep).

(** Whether [is.good() && (is.peek() == '/')] holds. *)
Definition slash_follows (ist : istream) : bool :=
  good ist && is_slash (fst (peek ist)).

(** A family-specific parse fails: the extraction returns with the stream in
    a failed state. *)
Definition parse_fails {A : Type} `{AddressType A} (ist : istream) : Prop :=
  exists ist', op_extract_base (A := A) ist null = Returned ist' null
               /\ fail ist' = true.

(** A parse that does not succeed: it fails, or it throws. *)
Definition parse_does_not_succeed {A : Type} `{AddressType A}
    (ist : istream) : Prop :=
  match op_extract_base (A := A) ist null with
  | Returned ist' _ => fail ist' = true
  | Thrown _ _ _ => True
  end.

(** Three networks and a probe that only the second one contains. *)
Definition net_a : ip_network_address :=
  ina_v4 (make_network_address (make_address_v4 x0a x00 x00 x00) 8%N).
Definition net_b : ip_network_address :=
  ina_v4 (make_network_address (make_address_v4 xc0 xa8 x01 x00) 24%N).
Definition net_c : ip_network_address :=
  ina_v6 (make_network_address any_address 0%N).
Definition probe_b : ip_address :=
  address_of_v4 (make_address_v4 xc0 xa8 x01 xc8).

(** Notions for the IPv6 textual form. *)
Definition zero_hextet : hextet := (x00, x00).

Definition hextet_text (h : hextet) : string := hex (hextet_value h).

(** A field of an address text: not empty, and free of colons. *)
Definition is_field (f : string) : Prop :=
  f <> "" /\ string_forall (is_not ":") f = true.

(** What is checked of the hexadecimal text of a 16-bit value: it is read
    back as that value, and it is a non-empty run of hexadecimal digits. *)
Definition hextet_text_checked (n : N) : bool :=
  match parse_hextet (hex n) with
  | Some h => (hextet_value h =? n)%N
  | None => false
  end
  && string_forall is_hex_digit (hex n)
  && negb (String.eqb (hex n) "").

(** The numbers below [n], the largest first. *)
Definition below (n : N) : list N :=
  N.recursion [] (fun k acc => k :: acc) n.

Definition starts_with_field_character (t : string) : Prop :=
  match t with
  | String c _ => is_not ":" c = true
  | EmptyString => False
  end.

Definition groups_text (groups : list hextet) : string :=
  join ":" (map hextet_text groups).

(** ** Notions the further properties are stated with *)

(** Bit [k] of an address, the bits numbered from the most significant bit
    of the first byte. *)
Definition address_bit (bytes : list byte) (k : nat) : bool :=
  Z.testbit (byte_val (at_index bytes (k / 8))) (Z.of_nat (7 - k mod 8)).

(** Whether two bytes have the same [count] most significant bits. *)
Definition top_bits_agree (count : nat) (x y : byte) : bool :=
  forallb (fun j => Bool.eqb (Z.testbit (byte_val x) (Z.of_nat (7 - j)))
                             (Z.testbit (byte_val y) (Z.of_nat (7 - j))))
          (seq 0 count).

(** The 256 bytes. *)
Definition all_bytes : list byte :=
  flat_map (fun n => match Byte.of_N n with Some b => [b] | None => [] end)
           (below 256).

(** What is checked of two bytes and a number [count] of bits: under the
    mask [0xFF << (8 - count)] they compare equal exactly when their [count]
    most significant bits agree, and they are equal exactly when all 8 do. *)
Definition mask_compares_top_bits (count : nat) (x y : byte) : bool :=
  let mask := Z.shiftl 255 (8 - Z.of_nat count) in
  Bool.eqb (Z.land (byte_val x) mask =? Z.land (byte_val y) mask)%Z
           (top_bits_agree count x y)
  && Bool.eqb (Byte.eqb x y) (top_bits_agree 8 x y).


(** The stream a read leaves when [rest] is what remains unread: the read
    has met the end of the input when nothing remains. *)
Definition left_unread (rest : string) : istream :=
  mk_istream rest (match rest with EmptyString => true | String _ _ => false end)
             false false.

(** The text that may follow a prefix length: none, or one that does not
    start with a digit. *)
Definition ends_prefix_length (rest : string) : Prop :=
  match rest with
  | EmptyString => True
  | String c _ => is_digit c = false
  end.

(** ** src/client.cpp: the values of a response

    The helpers of the anonymous namespace that decode the object a server
    answers with.  [client::values_type] is declared in [client.hpp]; the
    code uses it as a [std::map] from strings to strings ([find], [end],
    [clear], [operator[]]), whose entries are kept in the order of their
    keys. *)

Definition values_type : Type := list (string * string).

(** [values.find(key)]: the mapped value, [None] for [values.end()]. *)
Fixpoint values_find (values : values_type) (key : string) : option string :=
  match values with
  | [] => None
  | (k, v) :: values' =>
      if String.eqb k key then Some v else values_find values' key
  end.

(** [values[key] = value]: the entry is replaced, or inserted at its place
    in the order of the keys. *)
Fixpoint values_assign (values : values_type) (key value : string)
    : values_type :=
  match values with
  | [] => [(key, value)]
  | (k, v) :: values' =>
      match String.compare key k with
      | Lt => (key, value) :: values
      | Eq => (key, value) :: values'
      | Gt => (k, v) :: values_assign values' key value
      end
  end.

(** [has_value]: the result, and [value] as the call leaves it. *)
Definition has_value (values : values_type) (key value : string)
    : bool * string :=
  match values_find values key with
  | Some v => (true, v)
  | None => (false, value)
  end.

(** How a helper ends: it completes, or it throws a [std::runtime_error]
    with the message [what]; [state] is what it has made of the argument it
    writes to. *)
Inductive completion (S : Type) : Type :=
| Completed (state : S)
| Failed (what : string) (state : S).
Arguments Completed {S} _.
Arguments Failed {S} _ _.

Definition state_of {S : Type} (c : completion S) : S :=
  match c with Completed s | Failed _ s => s end.

Definition double_quote : string := String "034" EmptyString.

(** [assert_has_value(values, key, std::string&)]. *)
Definition assert_has_value (values : values_type) (key value : string)
    : completion string :=
  let '(found, value') := has_value values key value in
  if negb found then
    Failed ("Missing required value " ++ double_quote ++ key ++ double_quote ++ ".")
           value'
  else Completed value'.

(** The characters of a [const char*]: those before the first NUL. *)
Fixpoint c_str (s : string) : string :=
  match s with
  | EmptyString => EmptyString
  | String c r => if Ascii.eqb c "000" then EmptyString else String c (c_str r)
  end.

(** What [json_to_values] asks of a [rapidjson::Value]: [IsString()], and
    then [GetString()]. *)
Inductive json_value : Type :=
| json_string (characters : string)
| json_not_a_string.

(** What it asks of the [rapidjson::Document] after [Parse]:
    [HasParseError()], [IsObject()], and the members from [MemberBegin()] to
    [MemberEnd()], each a name and a value. *)
Inductive json_document : Type :=
| json_parse_error
| json_not_an_object
| json_object (members : list (string * json_value)).

(** The loop of [json_to_values] over the members.  Name and value pass
    through [const char*]. *)
Fixpoint json_to_values_members (members : list (string * json_value))
    (values : values_type) : completion values_type :=
  match members with
  | [] => Completed values
  | (name, value) :: members' =>
      let name := c_str name in
      match value with
      | json_not_a_string =>
          Failed ("JSON document parse error: values must be strings ("
                  ++ name ++ ").") values
      | json_string characters =>
          json_to_values_members members'
            (values_assign values name (c_str characters))
      end
  end.

Section JsonToValues.
(** [document.Parse<0>], of the rapidjson library. *)
Variable Parse : string -> json_document.

(** [json_to_values]. *)
Definition json_to_values (json : string) (values : values_type)
    : completion values_type :=
  let values : values_type := [] in
  match Parse (c_str json) with
  | json_parse_error => Failed "JSON syntax parse error." values
  | json_not_an_object =>
      Failed "JSON document parse error: root must be an object." values
  | json_object members => json_to_values_members members values
  end.

End JsonToValues.

(** The members a run of [json_to_values] gets to: those before the first
    whose value is not a string, as the names and values it stores. *)
Fixpoint stored_members (members : list (string * json_value))
    : list (string * string) :=
  match members with
  | (name, json_string characters) :: members' =>
      (c_str name, c_str characters) :: stored_members members'
  | _ => []
  end.

(** The value of the last entry of [entries] under [key]. *)
Definition last_value (entries : list (string * string)) (key : string)
    : option string :=
  fold_left (fun found entry =>
               if String.eqb (fst entry) key then Some (snd entry) else found)
            entries None.

(** Whether every member has a string for its value. *)
Definition all_strings (members : list (string * json_value)) : bool :=
  forallb (fun member =>
             match snd member with
             | json_string _ => true
             | json_not_a_string => false
             end) members.

(** Two documents a parse may give: one with a name twice, one with a value
    that is no string. *)
Definition sample_parse (json : string) : json_document :=
  json_object [("name", json_string "freelan"); ("major", json_string "1");
               ("major", json_string "2")].

Definition sample_parse_number (json : string) : json_document :=
  json_object [("name", json_string "freelan"); ("major", json_not_a_string)].

(** * Properties *)

(** ** Containment: the byte loop *)

Lemma byte_eqb_eq (a b : byte) : Byte.eqb a b = true <-> a = b.
Proof.
  split.
  - apply Byte.byte_dec_bl.
  - apply Byte.byte_dec_lb.
Qed.

Lemma byte_eqb_refl (a : byte) : Byte.eqb a a = true.
Proof. apply byte_eqb_eq. reflexivity. Qed.

Lemma at_index_middle (pre : list byte) (b : byte) (post : list byte) :
  at_index (pre ++ b :: post) (List.length pre) = b.
Proof. unfold at_index. apply nth_middle. Qed.

(** The source's mask [(0xFF >> n) ^ 0xFF] selects, in a byte, the bits that
    [0xFF << (8 - n)] selects. *)
Lemma mask_top_bits (b : byte) (n : N) :
  (1 <= n < 8)%N ->
  Z.land (byte_val b) (Z.lxor (Z.shiftr 255 (Z.of_N n)) 255)
  = Z.land (byte_val b) (Z.shiftl 255 (8 - Z.of_N n)).
Proof.
  intros Hn.
  assert (Hcases : n = 1%N \/ n = 2%N \/ n = 3%N \/ n = 4%N
                   \/ n = 5%N \/ n = 6%N \/ n = 7%N) by lia.
  destruct Hcases as [-> | [-> | [-> | [-> | [-> | [-> | ->]]]]]];
    destruct b; reflexivity.
Qed.

Lemma mask_of_zero : Z.lxor (Z.shiftr 255 (Z.of_N 0)) 255 = 0%Z.
Proof. reflexivity. Qed.

(** The indexed loop, started at index [|pre|] with the bytes [pre] behind
    it, is the specification's walk over the bytes that are left. *)
Lemma has_address_for_contains_spec (net addr pre_net pre_addr : list byte) :
  forall prefix_len : N,
    List.length addr = List.length net ->
    List.length pre_addr = List.length pre_net ->
    has_address_for (pre_net ++ net) (pre_addr ++ addr)
                    (List.length net) (List.length pre_net) prefix_len
    = contains_spec net addr prefix_len.
Proof.
  revert addr pre_net pre_addr.
  induction net as [| n net IH]; intros addr pre_net pre_addr prefix_len Hlen Hpre.
  - destruct addr; reflexivity.
  - destruct addr as [| a addr]; [discriminate Hlen |].
    simpl in Hlen. injection Hlen as Hlen.
    cbn [List.length has_address_for contains_spec].
    assert (Ha : at_index (pre_addr ++ a :: addr) (List.length pre_net) = a)
      by (rewrite <- Hpre; apply at_index_middle).
    rewrite !at_index_middle, !Ha.
    destruct (8 <=? prefix_len)%N eqn:Hfull.
    + destruct (Byte.eqb n a); cbn [negb]; [| reflexivity].
      specialize (IH addr (pre_net ++ [n])%list (pre_addr ++ [a])%list (prefix_len - 8)%N Hlen).
      rewrite <- !app_assoc, !length_app in IH. cbn [List.length app] in IH.
      rewrite !Nat.add_1_r in IH. apply IH. congruence.
    + apply N.leb_gt in Hfull. cbv zeta.
      destruct (1 <=? prefix_len)%N eqn:Hsome.
      * apply N.leb_le in Hsome.
        rewrite !mask_top_bits by lia.
        match goal with |- context [negb ?c] => destruct c end; reflexivity.
      * apply N.leb_gt in Hsome.
        assert (prefix_len = 0%N) as -> by lia.
        rewrite mask_of_zero, !Z.land_0_r. reflexivity.
Qed.

Lemma has_address_bytes_contains_spec (net addr : list byte) (prefix_len : N) :
  List.length addr = List.length net ->
  has_address_bytes net addr prefix_len = contains_spec net addr prefix_len.
Proof.
  intros Hlen. unfold has_address_bytes.
  apply (has_address_for_contains_spec net addr [] [] prefix_len Hlen).
  reflexivity.
Qed.

Lemma contains_spec_full_prefix (net : list byte) :
  forall (addr : list byte) (prefix_len : N),
    List.length addr = List.length net ->
    (8 * N.of_nat (List.length net) <= prefix_len)%N ->
    contains_spec net addr prefix_len = true <-> addr = net.
Proof.
  induction net as [| n net IH]; intros addr prefix_len Hlen Hwidth.
  - destruct addr; [| discriminate Hlen]. split; reflexivity.
  - destruct addr as [| a addr]; [discriminate Hlen |].
    simpl in Hlen. injection Hlen as Hlen.
    cbn [contains_spec].
    cbn [List.length] in Hwidth.
    assert (Hfull : (8 <=? prefix_len)%N = true) by (apply N.leb_le; lia).
    rewrite Hfull.
    destruct (Byte.eqb n a) eqn:Heq.
    + apply byte_eqb_eq in Heq. subst a.
      rewrite (IH addr (prefix_len - 8)%N Hlen) by lia.
      split; [intros -> | intros [=]]; congruence.
    + split; [discriminate |].
      intros [= -> _]. rewrite byte_eqb_refl in Heq. discriminate.
Qed.

Lemma has_address_for_zero_prefix (net addr : list byte) (todo i : nat) :
  has_address_for net addr todo i 0 = true.
Proof.
  destruct todo; [reflexivity |].
  cbn [has_address_for]. change (8 <=? 0)%N with false. cbv iota zeta.
  rewrite mask_of_zero, !Z.land_0_r. reflexivity.
Qed.

(** ** Strings, fields and tokens *)

Lemma append_nil_r (s : string) : s ++ "" = s.
Proof. induction s as [| c s IH]; [reflexivity | cbn; now rewrite IH]. Qed.

Lemma append_assoc (s t u : string) : (s ++ t) ++ u = s ++ t ++ u.
Proof. induction s as [| c s IH]; [reflexivity | cbn; now rewrite IH]. Qed.

Lemma string_forall_app (p : ascii -> bool) (s t : string) :
  string_forall p (s ++ t) = string_forall p s && string_forall p t.
Proof.
  induction s as [| c s IH]; [reflexivity |].
  cbn. rewrite IH. apply andb_assoc.
Qed.

Lemma string_forall_impl (p q : ascii -> bool) (s : string) :
  (forall c, p c = true -> q c = true) ->
  string_forall p s = true -> string_forall q s = true.
Proof.
  intros Hpq. induction s as [| c s IH]; [reflexivity |].
  cbn. intros [Hc Hs]%andb_prop. rewrite (Hpq c Hc), (IH Hs). reflexivity.
Qed.

Lemma split_on_field (sep : ascii) (s : string) :
  string_forall (is_not sep) s = true -> split_on sep s = [s].
Proof.
  induction s as [| c s IH]; [reflexivity |].
  cbn. unfold is_not at 1. intros [Hc Hs]%andb_prop.
  apply negb_true_iff in Hc. rewrite Hc, (IH Hs). reflexivity.
Qed.

Lemma split_on_app (sep : ascii) (s r : string) :
  string_forall (is_not sep) s = true ->
  split_on sep (s ++ String sep r) = s :: split_on sep r.
Proof.
  induction s as [| c s IH].
  - intros _. cbn. rewrite Ascii.eqb_refl. reflexivity.
  - cbn. unfold is_not at 1. intros [Hc Hs]%andb_prop.
    apply negb_true_iff in Hc. rewrite Hc, (IH Hs). reflexivity.
Qed.

Lemma split_on_join (sep : ascii) (fields : list string) :
  fields <> [] ->
  Forall (fun f => string_forall (is_not sep) f = true) fields ->
  split_on sep (join (String sep "") fields) = fields.
Proof.
  induction fields as [| f fields IH]; [congruence |].
  intros _ Hall. inversion Hall as [| ? ? Hf Hfields]; subst.
  destruct fields as [| g fields].
  - cbn. apply split_on_field, Hf.
  - change (join (String sep "") (f :: g :: fields))
      with (f ++ String sep (join (String sep "") (g :: fields))).
    rewrite (split_on_app sep f _ Hf), IH by (congruence || assumption).
    reflexivity.
Qed.

Lemma string_forall_join (p : ascii -> bool) (sep : string) (fields : list string) :
  string_forall p sep = true ->
  Forall (fun f => string_forall p f = true) fields ->
  string_forall p (join sep fields) = true.
Proof.
  intros Hsep. induction fields as [| f fields IH]; [reflexivity |].
  intros Hall. inversion Hall as [| ? ? Hf Hfields]; subst.
  destruct fields as [| g fields]; [exact Hf |].
  change (join sep (f :: g :: fields)) with (f ++ sep ++ join sep (g :: fields)).
  rewrite !string_forall_app, Hf, Hsep, (IH Hfields). reflexivity.
Qed.

Lemma option_all_map_some {T U : Type} (f : T -> option U) (g : U -> T)
    (l : list U) :
  (forall u, In u l -> f (g u) = Some u) ->
  option_all (map f (map g l)) = Some l.
Proof.
  induction l as [| u l IH]; [reflexivity |].
  intros Hl. cbn. rewrite (Hl u (or_introl eq_refl)), IH; [reflexivity |].
  intros v Hv. apply Hl. right. exact Hv.
Qed.

Lemma read_while_all (accept : ascii -> bool) (s : string) :
  string_forall accept s = true ->
  read_while accept s = (s, "", true).
Proof.
  induction s as [| c s IH]; [reflexivity |].
  cbn. intros [Hc Hs]%andb_prop. rewrite Hc, (IH Hs). reflexivity.
Qed.

Lemma read_while_stop (accept : ascii -> bool) (s : string) (c : ascii) (r : string) :
  string_forall accept s = true ->
  accept c = false ->
  read_while accept (s ++ String c r) = (s, String c r, false).
Proof.
  intros Hs Hc. induction s as [| d s IH].
  - cbn. rewrite Hc. reflexivity.
  - cbn in Hs |- *. apply andb_prop in Hs as [Hd Hs].
    rewrite Hd, (IH Hs). reflexivity.
Qed.

(** What [read_while] takes and what it leaves make up the buffer. *)
Lemma read_while_splits (accept : ascii -> bool) (buf : string) :
  forall token rest eof,
    read_while accept buf = (token, rest, eof) -> token ++ rest = buf.
Proof.
  induction buf as [| c buf IH]; intros token rest eof.
  - cbn. intros [= <- <- _]. reflexivity.
  - cbn. destruct (accept c).
    + destruct (read_while accept buf) as [[token' rest'] eof'].
      intros [= <- <- _]. cbn. f_equal. apply (IH token' rest' eof'). reflexivity.
    + intros [= <- <- _]. reflexivity.
Qed.

(** ** The address types keep the laws *)

Lemma dec_byte_digits (b : byte) :
  string_forall is_digit (dec (Byte.to_N b)) = true.
Proof. destruct b; reflexivity. Qed.

Lemma parse_octet_dec (b : byte) : parse_octet (dec (Byte.to_N b)) = Some b.
Proof. destruct b; reflexivity. Qed.

Lemma digit_is_not_dot (c : ascii) : is_digit c = true -> is_not "." c = true.
Proof.
  unfold is_not. destruct (Ascii.eqb_spec c "."); [subst; discriminate | reflexivity].
Qed.

Lemma digit_is_character_v4 (c : ascii) :
  is_digit c = true -> is_character_v4 c = true.
Proof. unfold is_character_v4. now intros ->. Qed.

#[export] Instance address_v4_laws : AddressTypeLaws address_v4.
Proof.
  split.
  - intros [b0 b1 b2 b3]. reflexivity.
  - intros [b0 b1 b2 b3]. cbn [from_string to_string address_v4_type].
    unfold from_string_v4, to_string_v4.
    rewrite split_on_join.
    + rewrite (option_all_map_some parse_octet (fun b => dec (Byte.to_N b)));
        [reflexivity |].
      intros b _. apply parse_octet_dec.
    + discriminate.
    + apply Forall_map, Forall_forall. intros b _.
      apply (string_forall_impl is_digit); [apply digit_is_not_dot |].
      apply dec_byte_digits.
  - intros a. cbn [to_string is_ip_address_character address_v4_type].
    unfold to_string_v4. apply string_forall_join; [reflexivity |].
    apply Forall_map, Forall_forall. intros b _.
    apply (string_forall_impl is_digit); [apply digit_is_character_v4 |].
    apply dec_byte_digits.
  - reflexivity.
Qed.

(** ** The IPv6 textual form *)

(** Every value of 16 bits is read back from its hexadecimal text, which is
    a field; checked by running through the values. *)

Lemma byte_to_N_zero (b : byte) : Byte.to_N b = 0%N -> b = x00.
Proof.
  intros Hb. pose proof (Byte.of_to_N b) as Hof. rewrite Hb in Hof.
  cbn in Hof. congruence.
Qed.

Lemma is_zero_hextet (h : hextet) : is_zero h = true -> h = zero_hextet.
Proof.
  destruct h as [hi lo]. unfold is_zero, hextet_value. cbn [fst snd].
  intros Hz%N.eqb_eq.
  assert (Byte.to_N hi = 0%N) by lia. assert (Byte.to_N lo = 0%N) by lia.
  unfold zero_hextet. f_equal; now apply byte_to_N_zero.
Qed.

Lemma hextet_value_bound (h : hextet) : (hextet_value h < 65536)%N.
Proof.
  destruct h as [hi lo]. unfold hextet_value. cbn [fst snd].
  pose proof (Byte.to_N_bounded hi). pose proof (Byte.to_N_bounded lo). lia.
Qed.

Lemma byte_to_N_inj (a b : byte) : Byte.to_N a = Byte.to_N b -> a = b.
Proof.
  intros Hab. pose proof (Byte.of_to_N a) as Ha. rewrite Hab, Byte.of_to_N in Ha.
  congruence.
Qed.

Lemma hextet_value_inj (h k : hextet) : hextet_value h = hextet_value k -> h = k.
Proof.
  destruct h as [hi lo], k as [hi' lo']. unfold hextet_value. cbn [fst snd].
  pose proof (Byte.to_N_bounded hi). pose proof (Byte.to_N_bounded lo).
  pose proof (Byte.to_N_bounded hi'). pose proof (Byte.to_N_bounded lo').
  intros Hv. f_equal; apply byte_to_N_inj; lia.
Qed.

Lemma in_below (n k : N) : (k < n)%N -> In k (below n).
Proof.
  unfold below. induction n as [| n IH] using N.peano_ind; [lia |].
  rewrite N.recursion_succ; [| reflexivity | intros ? ? -> ? ? ->; reflexivity].
  intros Hk. destruct (N.eq_dec k n) as [-> | Hne]; [left; reflexivity |].
  right. apply IH. lia.
Qed.

Lemma hextet_texts_checked :
  forallb hextet_text_checked (below 65536) = true.
Proof. vm_compute. reflexivity. Qed.

Lemma hextet_text_checked_all (n : N) :
  (n < 65536)%N -> hextet_text_checked n = true.
Proof.
  intros Hn. pose proof hextet_texts_checked as Hall.
  rewrite forallb_forall in Hall. apply Hall, in_below, Hn.
Qed.

Lemma parse_hextet_text (h : hextet) : parse_hextet (hextet_text h) = Some h.
Proof.
  pose proof (hextet_text_checked_all _ (hextet_value_bound h)) as Hc.
  unfold hextet_text_checked in Hc.
  apply andb_prop in Hc as [[Hparse _]%andb_prop _].
  unfold hextet_text.
  destruct (parse_hextet (hex (hextet_value h))) as [k |]; [| discriminate].
  apply N.eqb_eq in Hparse. f_equal. now apply hextet_value_inj.
Qed.

Lemma hex_digit_is_not_colon (c : ascii) :
  is_hex_digit c = true -> is_not ":" c = true.
Proof.
  unfold is_not. destruct (Ascii.eqb_spec c ":"); [subst; discriminate | reflexivity].
Qed.

Lemma hextet_text_hex_digits (h : hextet) :
  string_forall is_hex_digit (hextet_text h) = true.
Proof.
  pose proof (hextet_text_checked_all _ (hextet_value_bound h)) as Hc.
  unfold hextet_text_checked in Hc.
  apply andb_prop in Hc as [[_ Hdigits]%andb_prop _]. exact Hdigits.
Qed.

Lemma hextet_text_is_field (h : hextet) : is_field (hextet_text h).
Proof.
  pose proof (hextet_text_checked_all _ (hextet_value_bound h)) as Hc.
  unfold hextet_text_checked in Hc.
  apply andb_prop in Hc as [_ Hne]. split.
  - intros Hempty. unfold hextet_text in Hempty. rewrite Hempty in Hne. discriminate.
  - apply (string_forall_impl is_hex_digit); [apply hex_digit_is_not_colon |].
    apply hextet_text_hex_digits.
Qed.

(** *** Runs of zero groups *)

Lemma zero_run_decomposes (groups : list hextet) :
  groups = (repeat zero_hextet (zero_run groups)
            ++ skipn (zero_run groups) groups)%list.
Proof.
  induction groups as [| h groups IH]; [reflexivity |].
  cbn [zero_run]. destruct (is_zero h) eqn:Hz; [| reflexivity].
  apply is_zero_hextet in Hz. subst h. cbn. f_equal. exact IH.
Qed.

Lemma longest_zero_run_decomposes (groups : list hextet) :
  let '(start, len) := longest_zero_run groups in
  groups = (firstn start groups ++ repeat zero_hextet len
            ++ skipn (start + len) groups)%list.
Proof.
  induction groups as [| h groups IH]; [reflexivity |].
  cbn [longest_zero_run].
  destruct (longest_zero_run groups) as [start len].
  destruct (len <=? zero_run (h :: groups))%nat.
  - cbn [firstn app Nat.add]. apply zero_run_decomposes.
  - cbn [firstn app Nat.add skipn]. f_equal. exact IH.
Qed.

(** *** Texts with and without a double colon *)

Lemma split_double_colon_step (d : ascii) (r : string) :
  is_not ":" d = true \/ starts_with_field_character r ->
  r <> "" ->
  split_double_colon (String d r)
  = match split_double_colon r with
    | Some (before, after) => Some (String d before, after)
    | None => None
    end.
Proof.
  intros Hd Hr. destruct r as [| c r]; [congruence |].
  cbn [split_double_colon].
  assert (Hcond : Ascii.eqb d ":" && Ascii.eqb c ":" = false).
  { unfold is_not in Hd. cbn in Hd.
    destruct Hd as [Hd | Hc]; apply negb_true_iff in Hd || apply negb_true_iff in Hc.
    - rewrite Hd. reflexivity.
    - rewrite Hc. apply andb_false_r. }
  rewrite Hcond. reflexivity.
Qed.

Lemma field_starts_with_field_character (f t : string) :
  is_field f -> starts_with_field_character (f ++ t).
Proof.
  intros [Hne Hchars]. destruct f as [| c f]; [congruence |].
  cbn in Hchars |- *. now apply andb_prop in Hchars.
Qed.

Lemma append_not_empty_r (s t : string) : t <> "" -> s ++ t <> "".
Proof. destruct s; [trivial | discriminate]. Qed.

(** Across a field and the colon after it. *)
Lemma split_double_colon_skip (f t : string) :
  string_forall (is_not ":") f = true ->
  starts_with_field_character t ->
  split_double_colon (f ++ String ":" t)
  = match split_double_colon t with
    | Some (before, after) => Some (f ++ String ":" before, after)
    | None => None
    end.
Proof.
  intros Hf Ht. induction f as [| d f IH].
  - cbn [append]. apply split_double_colon_step; [now right |].
    destruct t; [destruct Ht | discriminate].
  - cbn in Hf. apply andb_prop in Hf as [Hd Hf].
    cbn [append]. rewrite split_double_colon_step, (IH Hf).
    + destruct (split_double_colon t) as [[before after] |]; reflexivity.
    + now left.
    + apply append_not_empty_r. discriminate.
Qed.

Lemma split_double_colon_here (f r : string) :
  string_forall (is_not ":") f = true ->
  split_double_colon (f ++ "::" ++ r) = Some (f, r).
Proof.
  intros Hf. change ("::" ++ r) with (String ":" (String ":" r)).
  induction f as [| d f IH]; [cbn; reflexivity |].
  cbn in Hf. apply andb_prop in Hf as [Hd Hf].
  cbn [append]. rewrite split_double_colon_step, (IH Hf); [reflexivity | now left |].
  apply append_not_empty_r. discriminate.
Qed.

Lemma split_double_colon_field (f : string) :
  string_forall (is_not ":") f = true -> split_double_colon f = None.
Proof.
  intros Hf. induction f as [| d f IH]; [reflexivity |].
  cbn in Hf. apply andb_prop in Hf as [Hd Hf].
  destruct f as [| c f]; [reflexivity |].
  rewrite split_double_colon_step, (IH Hf); [reflexivity | now left | discriminate].
Qed.

Lemma join_cons (sep f g : string) (fields : list string) :
  join sep (f :: g :: fields) = f ++ sep ++ join sep (g :: fields).
Proof. reflexivity. Qed.

Lemma join_fields_start (f : string) (fields : list string) (t : string) :
  is_field f -> starts_with_field_character (join ":" (f :: fields) ++ t).
Proof.
  intros Hf. destruct fields as [| g fields].
  - apply field_starts_with_field_character, Hf.
  - rewrite join_cons, append_assoc.
    apply field_starts_with_field_character, Hf.
Qed.

Lemma split_double_colon_after_fields (fields : list string) (r : string) :
  Forall is_field fields ->
  split_double_colon (join ":" fields ++ "::" ++ r) = Some (join ":" fields, r).
Proof.
  induction fields as [| f fields IH]; [reflexivity |].
  intros Hall. inversion Hall as [| ? ? Hf Hfields]; subst.
  destruct fields as [| g fields].
  - apply split_double_colon_here, Hf.
  - rewrite join_cons, append_assoc.
    change (":" ++ join ":" (g :: fields)) with (String ":" (join ":" (g :: fields))).
    change (String ":" (join ":" (g :: fields)) ++ "::" ++ r)
      with (String ":" (join ":" (g :: fields) ++ "::" ++ r)).
    rewrite split_double_colon_skip, (IH Hfields); [reflexivity | apply Hf |].
    inversion Hfields; subst. now apply join_fields_start.
Qed.

Lemma split_double_colon_fields (fields : list string) :
  Forall is_field fields -> split_double_colon (join ":" fields) = None.
Proof.
  induction fields as [| f fields IH]; [reflexivity |].
  intros Hall. inversion Hall as [| ? ? Hf Hfields]; subst.
  destruct fields as [| g fields].
  - apply split_double_colon_field, Hf.
  - rewrite join_cons.
    change (":" ++ join ":" (g :: fields)) with (String ":" (join ":" (g :: fields))).
    rewrite split_double_colon_skip, (IH Hfields); [reflexivity | apply Hf |].
    inversion Hfields; subst.
    rewrite <- (append_nil_r (join ":" (g :: fields))). now apply join_fields_start.
Qed.

(** *** Groups and their text *)

Lemma hextet_texts_are_fields (groups : list hextet) :
  Forall is_field (map hextet_text groups).
Proof. apply Forall_map, Forall_forall. intros h _. apply hextet_text_is_field. Qed.

Lemma parse_hextets_of_text (groups : list hextet) :
  groups <> [] ->
  option_all (map parse_hextet (split_on ":" (groups_text groups))) = Some groups.
Proof.
  intros Hne. unfold groups_text. rewrite split_on_join.
  - apply option_all_map_some. intros h _. apply parse_hextet_text.
  - destruct groups; [congruence | discriminate].
  - apply Forall_map, Forall_forall. intros h _. apply hextet_text_is_field.
Qed.

Lemma parse_groups_text (groups : list hextet) :
  parse_groups (groups_text groups) = Some groups.
Proof.
  destruct groups as [| h groups]; [reflexivity |].
  unfold parse_groups.
  pose proof (join_fields_start (hextet_text h) (map hextet_text groups) ""
                (hextet_text_is_field h)) as Hstart.
  rewrite append_nil_r in Hstart. change (groups_text (h :: groups))
    with (join ":" (hextet_text h :: map hextet_text groups)).
  destruct (join ":" (hextet_text h :: map hextet_text groups)) eqn:Htext;
    [destruct Hstart |].
  rewrite <- Htext. apply (parse_hextets_of_text (h :: groups)). discriminate.
Qed.

Lemma address_of_hextets (a : address_v6) : address_of_groups (hextets a) = Some a.
Proof. destruct a. reflexivity. Qed.

Lemma hextets_length (a : address_v6) : List.length (hextets a) = 8%nat.
Proof. destruct a. reflexivity. Qed.

Lemma from_string_to_string_v6 (a : address_v6) :
  from_string_v6 (to_string_v6 a) = Some a.
Proof.
  unfold to_string_v6, from_string_v6.
  pose proof (longest_zero_run_decomposes (hextets a)) as Hrun.
  destruct (longest_zero_run (hextets a)) as [start len].
  fold hextet_text. fold (groups_text (firstn start (hextets a))).
  fold (groups_text (skipn (start + len) (hextets a))).
  fold (groups_text (hextets a)).
  destruct (2 <=? len)%nat eqn:Hlen.
  - apply Nat.leb_le in Hlen.
    unfold groups_text at 1.
    rewrite split_double_colon_after_fields by apply hextet_texts_are_fields.
    fold (groups_text (firstn start (hextets a))).
    rewrite !parse_groups_text.
    pose proof (f_equal (@List.length hextet) Hrun) as Hsize.
    rewrite !length_app, repeat_length, hextets_length in Hsize.
    set (pre := firstn start (hextets a)) in *.
    set (post := skipn (start + len) (hextets a)) in *.
    assert (Hgiven : (List.length pre + List.length post <=? 7)%nat = true)
      by (apply Nat.leb_le; lia).
    rewrite Hgiven.
    replace (8 - (List.length pre + List.length post))%nat with len by lia.
    rewrite <- (address_of_hextets a). f_equal. symmetry. exact Hrun.
  - unfold groups_text at 1.
    rewrite split_double_colon_fields by apply hextet_texts_are_fields.
    fold (groups_text (hextets a)).
    rewrite parse_hextets_of_text; [apply address_of_hextets |].
    destruct a. discriminate.
Qed.

Lemma is_hex_digit_character_v6 (c : ascii) :
  is_hex_digit c = true -> is_character_v6 c = true.
Proof. unfold is_character_v6. now intros ->. Qed.

Lemma groups_text_characters (groups : list hextet) :
  string_forall is_character_v6 (groups_text groups) = true.
Proof.
  apply string_forall_join; [reflexivity |].
  apply Forall_map, Forall_forall. intros h _.
  apply (string_forall_impl is_hex_digit); [apply is_hex_digit_character_v6 |].
  apply hextet_text_hex_digits.
Qed.

#[export] Instance address_v6_laws : AddressTypeLaws address_v6.
Proof.
  split.
  - intros a. destruct a as [[] [] [] [] [] [] [] []]. reflexivity.
  - apply from_string_to_string_v6.
  - intros a. cbn [to_string is_ip_address_character address_v6_type].
    unfold to_string_v6.
    destruct (longest_zero_run (hextets a)) as [start len].
    fold hextet_text. fold (groups_text (firstn start (hextets a))).
    fold (groups_text (skipn (start + len) (hextets a))).
    fold (groups_text (hextets a)).
    destruct (2 <=? len)%nat.
    + rewrite !string_forall_app, !groups_text_characters. reflexivity.
    + apply groups_text_characters.
  - reflexivity.
Qed.

(** ** Decimal text *)

Lemma string_of_uint_digits (d : Decimal.uint) :
  string_forall is_digit (DecimalString.NilEmpty.string_of_uint d) = true.
Proof. induction d; cbn; auto. Qed.

Lemma to_uint_nonnil (n : N) : N.to_uint n <> Decimal.Nil.
Proof.
  destruct n as [| p]; [discriminate |].
  apply DecimalPos.Unsigned.to_uint_nonnil.
Qed.

Lemma dec_digits (n : N) : string_forall is_digit (dec n) = true.
Proof.
  unfold dec, DecimalString.NilZero.string_of_uint.
  destruct (N.to_uint n) eqn:Hd; try reflexivity;
    rewrite <- Hd; apply string_of_uint_digits.
Qed.

Lemma lexical_cast_dec (n : N) :
  (n <= UINT_MAX)%N -> lexical_cast_unsigned_int (dec n) = Some n.
Proof.
  intros Hn. unfold lexical_cast_unsigned_int, dec.
  rewrite DecimalString.NilZero.usu by apply to_uint_nonnil.
  rewrite DecimalN.Unsigned.of_to.
  apply N.leb_le in Hn. rewrite Hn. reflexivity.
Qed.

Lemma dec_not_empty (n : N) : dec n <> "".
Proof.
  intros Hempty.
  pose proof (DecimalString.NilZero.usu (N.to_uint n) (to_uint_nonnil n)) as Hus.
  unfold dec in Hempty. rewrite Hempty in Hus. discriminate Hus.
Qed.

(** ** The stream operations: what a failure leaves behind *)

Section StreamFacts.
Context {A : Type} `{AddressType A}.

Lemma read_ip_address_cases (ist : istream) (ip_address : string) :
  good ist = true ->
  let '(ist1, ip_address1) := read_ip_address (A := A) ist ip_address in
  (fail ist1 = true /\ rdbuf ist1 = rdbuf ist /\ ip_address1 = ip_address)
  \/ (good ist1 = negb (eofbit ist1) /\ fail ist1 = false
      /\ rdbuf ist = ip_address1 ++ rdbuf ist1
      /\ exists a, from_string ip_address1 = Some a).
Proof.
  intros Hgood. unfold read_ip_address. rewrite Hgood.
  destruct (read_while is_ip_address_character (rdbuf ist))
    as [[token rest] eof] eqn:Hread.
  apply read_while_splits in Hread.
  destruct (from_string token) as [a |] eqn:Hfrom.
  - right. cbn. repeat split; try (symmetry; assumption).
    + unfold good. cbn. now rewrite !orb_false_r.
    + exists a. exact Hfrom.
  - left. cbn. repeat split; assumption.
Qed.

Lemma read_prefix_length_cases (ist : istream) (prefix_length : string) :
  good ist = true ->
  let '(ist1, prefix_length1) := read_prefix_length ist prefix_length in
  (fail ist1 = true /\ rdbuf ist1 = rdbuf ist /\ prefix_length1 = prefix_length)
  \/ (fail ist1 = false /\ rdbuf ist = prefix_length1 ++ rdbuf ist1).
Proof.
  intros Hgood. unfold read_prefix_length. rewrite Hgood.
  destruct (read_while is_digit (rdbuf ist)) as [[token rest] eof] eqn:Hread.
  apply read_while_splits in Hread.
  destruct token as [| c token].
  - left. cbn. repeat split. exact Hread.
  - right. cbn. split; [reflexivity | symmetry; exact Hread].
Qed.

End StreamFacts.

Section ExtractFacts.
Context {A : Type} `{AddressType A}.

Lemma read_ip_address_prefix_length_restores
    (ist : istream) (ip_address prefix_length : string) :
  let '(ist', _, _) :=
    read_ip_address_prefix_length (A := A) ist ip_address prefix_length in
  fail ist' = true -> rdbuf ist' = rdbuf ist.
Proof.
  unfold read_ip_address_prefix_length.
  destruct (good ist) eqn:Hgood; [| reflexivity].
  pose proof (read_ip_address_cases ist ip_address Hgood) as Hip.
  destruct (read_ip_address ist ip_address) as [ist1 ip_address1].
  destruct Hip as [(Hfail & Hbuf & _) | (Hgood1 & Hfail & Hbuf & _)].
  - unfold to_bool. rewrite Hfail. cbn. intros _. exact Hbuf.
  - unfold to_bool. rewrite Hfail. cbn [negb].
    destruct (good ist1) eqn:Hg1.
    + destruct (rdbuf ist1) as [| c rest] eqn:Hrest.
      * unfold peek. rewrite Hrest. cbn. intros _.
        rewrite Hrest. symmetry. exact Hbuf.
      * unfold peek. rewrite Hrest. cbn [is_slash].
        destruct (Ascii.eqb_spec c "/") as [-> | Hc].
        -- assert (Hgood3 : good (ignore ist1) = true).
           { unfold ignore, good in *. rewrite Hrest. exact Hg1. }
           pose proof (read_prefix_length_cases (ignore ist1) prefix_length Hgood3) as Hpl.
           destruct (read_prefix_length (ignore ist1) prefix_length) as [ist4 pl1].
           destruct Hpl as [(Hfail4 & Hbuf4 & _) | (Hfail4 & _)].
           ++ unfold to_bool. rewrite Hfail4. cbn. intros _.
              rewrite Hbuf4, Hbuf, append_assoc.
              unfold ignore. rewrite Hrest. reflexivity.
           ++ unfold to_bool. rewrite Hfail4. cbn. congruence.
        -- cbn. intros _. rewrite Hrest. symmetry. exact Hbuf.
    + cbn. intros _. rewrite Hbuf. reflexivity.
Qed.

(** A stream extraction either fails, having restored the position and
    left the value alone, or throws, the value alone again, or succeeds. *)
Lemma op_extract_base_outcome (ist : istream) (value : base_ip_network_address A) :
  match op_extract_base ist value with
  | Returned ist' value' =>
      (fail ist' = true /\ rdbuf ist' = rdbuf ist /\ value' = value)
      \/ fail ist' = false
  | Thrown _ _ value' => value' = value
  end.
Proof.
  unfold op_extract_base.
  pose proof (read_ip_address_prefix_length_restores ist "" "") as Hrestore.
  destruct (read_ip_address_prefix_length ist "" "") as [[ist1 ip] pl].
  unfold to_bool. destruct (fail ist1) eqn:Hfail; cbn [negb].
  - left. auto.
  - destruct (from_string ip); [| reflexivity].
    destruct (lexical_cast_unsigned_int pl); [| reflexivity].
    right. exact Hfail.
Qed.

End ExtractFacts.

Lemma clear_restored (ist ist' : istream) :
  rdbuf ist' = rdbuf ist -> clear ist' = clear ist.
Proof. unfold clear. now intros ->. Qed.

Lemma clear_good (ist : istream) : good ist = true -> clear ist = ist.
Proof.
  destruct ist as [buf e f b]. unfold good, clear. cbn.
  intros Hgood. apply negb_true_iff in Hgood.
  apply orb_false_elim in Hgood as [[-> ->]%orb_false_elim ->]. reflexivity.
Qed.

Lemma to_bool_clear (ist : istream) : to_bool (clear ist) = true.
Proof. reflexivity. Qed.

Lemma good_to_bool (ist : istream) : good ist = true -> to_bool ist = true.
Proof.
  unfold good, to_bool, fail. destruct (eofbit ist), (failbit ist), (badbit ist);
    cbn; congruence.
Qed.

(** The IPv4 block, when the IPv4 parse does not succeed. *)
Lemma op_extract_v4_block_failure (ist : istream) (value : ip_network_address) :
  parse_does_not_succeed (A := address_v4) ist ->
  value_of (op_extract_v4_block ist value) = value.
Proof.
  unfold parse_does_not_succeed, op_extract_v4_block.
  destruct (to_bool ist); [| reflexivity].
  destruct (op_extract_base ist null) as [ist' ina | e ist' ina]; [| reflexivity].
  unfold to_bool. intros ->. reflexivity.
Qed.

(** When both family parses fail, the operator hands back the stream with
    its state cleared, and the value as it was. *)
Lemma op_extract_both_fail (ist : istream) (value : ip_network_address) :
  to_bool ist = true ->
  parse_fails (A := address_v6) ist ->
  parse_fails (A := address_v4) (clear ist) ->
  op_extract ist value = Returned (clear ist) value.
Proof.
  intros Hbool (ist6 & Hret6 & Hfail6) (ist4 & Hret4 & Hfail4).
  unfold op_extract. rewrite Hbool, Hret6.
  unfold to_bool at 1. rewrite Hfail6. cbn [negb].
  pose proof (op_extract_base_outcome ist (null (A := address_v6))) as Hout.
  rewrite Hret6 in Hout.
  destruct Hout as [(_ & Hbuf & _) | Hok]; [| congruence].
  rewrite (clear_restored ist ist6 Hbuf).
  unfold op_extract_v4_block. rewrite to_bool_clear, Hret4.
  unfold to_bool. rewrite Hfail4. cbn [negb].
  pose proof (op_extract_base_outcome (clear ist) (null (A := address_v4))) as Hout.
  rewrite Hret4 in Hout.
  destruct Hout as [(_ & Hbuf4 & _) | Hok]; [| congruence].
  rewrite (clear_restored (clear ist) ist4 Hbuf4). reflexivity.
Qed.

(** ** Containment *)

(** C2: for a network address and a probe of the same family, [has_address]
    is the walk the specification describes: whole bytes compared while at
    least 8 prefix bits remain, then the top [remaining] bits of one byte
    under the mask [0xFF << (8 - remaining)], which decides the result, and
    [true] when no bit remains. *)
Theorem C2_has_address_is_the_prefix_walk
    {A : Type} `{AddressTypeLaws A}
    (self : base_ip_network_address A) (probe : A) :
  has_address self probe
  = contains_spec (to_bytes (address self)) (to_bytes probe) (prefix_length self).
Proof.
  unfold has_address. apply has_address_bytes_contains_spec.
  rewrite !to_bytes_size. reflexivity.
Qed.

Lemma C2_witness :
  has_address
    (make_network_address (make_address_v4 xc0 xa8 x10 x00) 20%N)
    (make_address_v4 xc0 xa8 x1f x07)
  = contains_spec [xc0; xa8; x10; x00] [xc0; xa8; x1f; x07] 20%N.
Proof.
  exact (C2_has_address_is_the_prefix_walk
           (make_network_address (make_address_v4 xc0 xa8 x10 x00) 20%N)
           (make_address_v4 xc0 xa8 x1f x07)).
Defined.

(** C7: a prefix length at or above the bit width of the family is accepted
    by the constructor, and the network then contains a probe exactly when
    the probe has the bytes of the network's own address. *)
Theorem C7_full_prefix_is_exact_match
    {A : Type} `{AddressTypeLaws A} (a : A) (n : N) (probe : A) :
  (8 * N.of_nat bytes_size <= n)%N ->
  prefix_length (make_network_address a n) = n
  /\ (has_address (make_network_address a n) probe = true
      <-> to_bytes probe = to_bytes a).
Proof.
  intros Hwidth. split; [reflexivity |].
  unfold has_address. cbn [address prefix_length].
  rewrite has_address_bytes_contains_spec by (rewrite !to_bytes_size; reflexivity).
  apply contains_spec_full_prefix.
  - rewrite !to_bytes_size. reflexivity.
  - rewrite to_bytes_size. exact Hwidth.
Qed.

Lemma C7_witness :
  prefix_length (make_network_address (make_address_v4 x0a x00 x00 x01) 40%N)
  = 40%N
  /\ (has_address (make_network_address (make_address_v4 x0a x00 x00 x01) 40%N)
        (make_address_v4 x0a x00 x00 x02) = true
      <-> to_bytes (make_address_v4 x0a x00 x00 x02)
          = to_bytes (make_address_v4 x0a x00 x00 x01)).
Proof.
  apply (C7_full_prefix_is_exact_match
           (make_address_v4 x0a x00 x00 x01) 40%N
           (make_address_v4 x0a x00 x00 x02)).
  cbn. lia.
Defined.

(** C8: a network address whose prefix length is 0 contains every address of
    its family, whatever its own address is. *)
Theorem C8_zero_prefix_contains_all
    {A : Type} `{AddressType A}
    (self : base_ip_network_address A) (probe : A) :
  prefix_length self = 0%N -> has_address self probe = true.
Proof.
  intros Hzero. unfold has_address, has_address_bytes. rewrite Hzero.
  apply has_address_for_zero_prefix.
Qed.

Lemma C8_witness :
  has_address (make_network_address (make_address_v4 xc0 xa8 x01 x00) 0%N)
              (make_address_v4 x08 x08 x08 x08) = true.
Proof.
  apply (C8_zero_prefix_contains_all
           (make_network_address (make_address_v4 xc0 xa8 x01 x00) 0%N)
           (make_address_v4 x08 x08 x08 x08)).
  reflexivity.
Defined.

(** C6: a variant holding an IPv4 network contains no IPv6 address and a
    variant holding an IPv6 network contains no IPv4 address, whatever the
    bytes are; the test returns [false], and no conversion is attempted. *)
Theorem C6_cross_family_is_false
    (n4 : ipv4_network_address) (n6 : ipv6_network_address)
    (a4 : address_v4) (a6 : address_v6) :
  has_address_ina (ina_v4 n4) (address_of_v6 a6) = false
  /\ has_address_ina (ina_v6 n6) (address_of_v4 a4) = false.
Proof. split; reflexivity. Qed.

(** ** The membership helper *)

Section RangeFacts.
Context {NetworkAddress Address : Type}.
Variable contains : NetworkAddress -> Address -> bool.

Lemma has_address_range_calls_result (range : list NetworkAddress) (addr : Address) :
  fst (has_address_range_calls contains range addr)
  = has_address_range contains range addr.
Proof.
  induction range as [| ina range IH]; [reflexivity |].
  cbn. destruct (contains ina addr); [reflexivity |].
  destruct (has_address_range_calls contains range addr). exact IH.
Qed.

Lemma has_address_range_calls_none (range : list NetworkAddress) (addr : Address) :
  (forall x, In x range -> contains x addr = false) ->
  has_address_range_calls contains range addr = (false, range).
Proof.
  induction range as [| ina range IH]; [reflexivity |].
  intros Hnone. cbn.
  rewrite (Hnone ina (or_introl eq_refl)), IH; [reflexivity |].
  intros x Hx. apply Hnone. right. exact Hx.
Qed.

Lemma has_address_range_calls_first
    (before : list NetworkAddress) (ina : NetworkAddress)
    (after : list NetworkAddress) (addr : Address) :
  (forall x, In x before -> contains x addr = false) ->
  contains ina addr = true ->
  has_address_range_calls contains (before ++ ina :: after) addr
  = (true, (before ++ [ina])%list).
Proof.
  intros Hnone Hina. induction before as [| x before IH].
  - cbn. rewrite Hina. reflexivity.
  - cbn. rewrite (Hnone x (or_introl eq_refl)), IH; [reflexivity |].
    intros y Hy. apply Hnone. right. exact Hy.
Qed.

End RangeFacts.

(** C9: the membership helper goes through the sequence in order; at the
    first element that contains the probe it returns [true], having called
    the containment test on that element and the ones before it and on no
    later one; when no element contains the probe, as in the empty sequence,
    it returns [false]. *)
Theorem C9_membership_short_circuits
    {NetworkAddress Address : Type}
    (contains : NetworkAddress -> Address -> bool) (addr : Address) :
  has_address_range contains [] addr = false
  /\ (forall before ina after,
        (forall x, In x before -> contains x addr = false) ->
        contains ina addr = true ->
        has_address_range contains (before ++ ina :: after) addr = true
        /\ snd (has_address_range_calls contains (before ++ ina :: after) addr)
           = (before ++ [ina])%list)
  /\ (forall range,
        (forall x, In x range -> contains x addr = false) ->
        has_address_range contains range addr = false).
Proof.
  split; [reflexivity |]. split.
  - intros before ina after Hnone Hina.
    rewrite <- has_address_range_calls_result.
    rewrite (has_address_range_calls_first contains before ina after addr Hnone Hina).
    split; reflexivity.
  - intros range Hnone.
    rewrite <- has_address_range_calls_result.
    rewrite (has_address_range_calls_none contains range addr Hnone).
    reflexivity.
Qed.

Lemma C9_witness :
  has_address_range has_address_ina [net_a; net_b; net_c] probe_b = true
  /\ snd (has_address_range_calls has_address_ina [net_a; net_b; net_c] probe_b)
     = [net_a; net_b].
Proof.
  apply (proj1 (proj2 (C9_membership_short_circuits has_address_ina probe_b))
           [net_a] net_b [net_c]).
  - intros x [<- | []]. reflexivity.
  - reflexivity.
Defined.

Lemma peek_keeps_slash (ist : istream) (c : option ascii) (ist' : istream) :
  peek ist = (c, ist') -> is_slash c = true -> ist' = ist.
Proof.
  unfold peek. destruct (rdbuf ist).
  - intros [= <- _]. discriminate.
  - intros [= _ <-]. reflexivity.
Qed.

(** C3: when the address portion parses and then no [/] follows, or the
    prefix length cannot be read, the extraction fails, the value is not
    assigned, and the stream holds again the characters it held before the
    attempt. *)
Theorem C3_failed_parse_restores_position
    {A : Type} `{AddressType A}
    (ist ist1 : istream) (token : string) (value : base_ip_network_address A) :
  good ist = true ->
  read_ip_address (A := A) ist "" = (ist1, token) ->
  to_bool ist1 = true ->
  slash_follows ist1 = false
  \/ to_bool (fst (read_prefix_length (ignore ist1) "")) = false ->
  exists ist',
    op_extract_base ist value = Returned ist' value
    /\ fail ist' = true
    /\ rdbuf ist' = rdbuf ist.
Proof.
  intros Hgood Hread Hbool Hcause.
  pose proof (read_ip_address_prefix_length_restores (A := A) ist "" "") as Hrestore.
  assert (Hfail : fail (fst (fst (read_ip_address_prefix_length (A := A) ist "" "")))
                  = true).
  { unfold read_ip_address_prefix_length. rewrite Hgood, Hread, Hbool.
    unfold slash_follows in Hcause.
    destruct (good ist1); cbn [andb] in Hcause.
    - destruct (peek ist1) as [c ist2] eqn:Hpeek. cbn [fst] in Hcause.
      destruct (is_slash c) eqn:Hslash; [| reflexivity].
      rewrite (peek_keeps_slash ist1 c ist2 Hpeek Hslash).
      destruct Hcause as [Hno | Hprefix]; [discriminate |].
      destruct (read_prefix_length (ignore ist1) "") as [ist4 pl].
      cbn [fst] in Hprefix. rewrite Hprefix. reflexivity.
    - reflexivity. }
  unfold op_extract_base.
  destruct (read_ip_address_prefix_length ist "" "") as [[ist' ip] pl].
  cbn [fst] in Hfail. exists ist'.
  unfold to_bool. rewrite Hfail. cbn [negb]. auto.
Qed.

Lemma C3_witness :
  exists ist',
    op_extract_base (A := address_v4) (istringstream "10.0.0.1") null
    = Returned ist' null
    /\ fail ist' = true
    /\ rdbuf ist' = "10.0.0.1".
Proof.
  apply (C3_failed_parse_restores_position
           (istringstream "10.0.0.1") (mk_istream "" true false false)
           "10.0.0.1" null).
  - reflexivity.
  - reflexivity.
  - reflexivity.
  - left. reflexivity.
Defined.

(** C4: the text [operator<<] writes for a network address -- the address in
    its textual form, a [/], the prefix length in decimal -- is read back by
    [operator>>] as the same value, whatever value the reader held before. *)
Theorem C4_parse_format_round_trip
    {A : Type} `{AddressTypeLaws A}
    (v previous : base_ip_network_address A) :
  (prefix_length v <= UINT_MAX)%N ->
  op_extract_base (istringstream (format v)) previous
  = Returned (mk_istream "" true false false) v.
Proof.
  intros Hrange. destruct v as [a n]. cbn [prefix_length] in Hrange.
  unfold format, op_insert_base. cbn [address prefix_length append].
  unfold op_extract_base, read_ip_address_prefix_length, read_ip_address.
  cbn [istringstream good rdbuf eofbit failbit badbit orb negb].
  rewrite (read_while_stop _ (to_string a) "/" (dec n)
             (to_string_characters a) slash_is_not_an_address_character).
  rewrite from_string_to_string.
  cbn [to_bool fail good peek ignore rdbuf eofbit failbit badbit orb negb
       is_slash fst snd].
  rewrite Ascii.eqb_refl.
  unfold read_prefix_length.
  cbn [good rdbuf eofbit failbit badbit orb negb].
  rewrite (read_while_all is_digit (dec n) (dec_digits n)).
  destruct (dec n) as [| c digits] eqn:Hdec; [now apply dec_not_empty in Hdec |].
  cbn [to_bool fail failbit badbit orb negb].
  rewrite from_string_to_string, <- Hdec, (lexical_cast_dec n Hrange).
  reflexivity.
Qed.

Lemma C4_witness :
  op_extract_base
    (istringstream
       (format (make_network_address (make_address_v4 xc0 xa8 x01 x00) 24%N)))
    null
  = Returned (mk_istream "" true false false)
      (make_network_address (make_address_v4 xc0 xa8 x01 x00) 24%N).
Proof.
  apply (C4_parse_format_round_trip
           (make_network_address (make_address_v4 xc0 xa8 x01 x00) 24%N) null).
  vm_compute. discriminate.
Defined.

(** ** The failure of both family parses *)

(** C1: on the text [10.0.0.1], which lacks the prefix length, the IPv6 parse
    and the IPv4 parse both fail; the operator on the variant then returns
    the stream with its state cleared, so that the stream tests as good and
    the value is the one the caller passed: the failure does not reach the
    caller. *)
Theorem C1_union_parse_failure_is_cleared :
  parse_fails (A := address_v6) (istringstream "10.0.0.1")
  /\ parse_fails (A := address_v4) (istringstream "10.0.0.1")
  /\ op_extract (istringstream "10.0.0.1") net_b
     = Returned (istringstream "10.0.0.1") net_b
  /\ to_bool (stream_of (op_extract (istringstream "10.0.0.1") net_b)) = true.
Proof.
  split; [| split; [| split]].
  - exists (mk_istream "10.0.0.1" true true false). split; reflexivity.
  - exists (mk_istream "10.0.0.1" true true false). split; reflexivity.
  - reflexivity.
  - reflexivity.
Qed.

(** C5: the IPv6 grammar is tried first and its success is the result; when
    it fails, the position is the one before the attempt and the IPv4
    grammar is tried from there, so that a text only the IPv4 grammar
    accepts is read by the IPv4 branch and the variant holds an IPv4
    network. *)
Theorem C5_ipv6_first_then_ipv4
    (ist ist' : istream) (value : ip_network_address) :
  good ist = true ->
  (forall ina : ipv6_network_address,
     op_extract_base ist null = Returned ist' ina ->
     to_bool ist' = true ->
     op_extract ist value = Returned ist' (ina_v6 ina))
  /\ (forall ina : ipv4_network_address,
        parse_fails (A := address_v6) ist ->
        op_extract_base ist null = Returned ist' ina ->
        to_bool ist' = true ->
        op_extract ist value = Returned ist' (ina_v4 ina)
        /\ family_of (value_of (op_extract ist value)) = IPv4).
Proof.
  intros Hgood. pose proof (good_to_bool ist Hgood) as Hbool. split.
  - intros ina Hret Hok. unfold op_extract. rewrite Hbool, Hret, Hok. reflexivity.
  - intros ina (ist6 & Hret6 & Hfail6) Hret4 Hok.
    assert (Hrun : op_extract ist value = Returned ist' (ina_v4 ina)).
    { unfold op_extract. rewrite Hbool, Hret6.
      unfold to_bool at 1. rewrite Hfail6. cbn [negb].
      pose proof (op_extract_base_outcome ist (null (A := address_v6))) as Hout.
      rewrite Hret6 in Hout.
      destruct Hout as [(_ & Hbuf & _) | Hnofail]; [| congruence].
      rewrite (clear_restored ist ist6 Hbuf), (clear_good ist Hgood).
      unfold op_extract_v4_block. rewrite Hbool, Hret4, Hok. reflexivity. }
    rewrite Hrun. split; reflexivity.
Qed.

Lemma C5_witness :
  op_extract (istringstream "10.0.0.1/24") (ina_v6 null)
  = Returned (mk_istream "" true false false)
      (ina_v4 (make_network_address (make_address_v4 x0a x00 x00 x01) 24%N))
  /\ family_of (value_of (op_extract (istringstream "10.0.0.1/24") (ina_v6 null)))
     = IPv4.
Proof.
  apply (proj2 (C5_ipv6_first_then_ipv4
                  (istringstream "10.0.0.1/24")
                  (mk_istream "" true false false) (ina_v6 null) eq_refl)).
  - exists (mk_istream "10.0.0.1/24" false true false). split; reflexivity.
  - reflexivity.
  - reflexivity.
Defined.

(** C10: a parse that fails leaves the value it was to overwrite as it was.
    The family-specific operator assigns only when the stream has not
    failed, and not at all when a constructor argument throws; the operator
    on the variant assigns only the result of a family parse that
    succeeded. *)
Theorem C10_failed_parse_keeps_value :
  (forall (A : Type) (AT : AddressType A)
          (ist : istream) (value : base_ip_network_address A),
      match op_extract_base ist value with
      | Returned ist' value' => fail ist' = true -> value' = value
      | Thrown _ _ value' => value' = value
      end)
  /\ (forall (ist : istream) (value : ip_network_address),
        parse_does_not_succeed (A := address_v6) ist ->
        parse_does_not_succeed (A := address_v4) (clear ist) ->
        value_of (op_extract ist value) = value).
Proof.
  split.
  - intros A AT ist value.
    pose proof (op_extract_base_outcome ist value) as Hout.
    destruct (op_extract_base ist value) as [ist' value' | e ist' value'].
    + intros Hfail. destruct Hout as [(_ & _ & Hvalue) | Hok]; congruence.
    + exact Hout.
  - intros ist value H6 H4. unfold op_extract.
    destruct (to_bool ist) eqn:Hbool.
    + unfold parse_does_not_succeed in H6.
      pose proof (op_extract_base_outcome ist (null (A := address_v6))) as Hout.
      destruct (op_extract_base ist null) as [ist6 ina | e ist6 ina];
        [| reflexivity].
      unfold to_bool at 1. rewrite H6. cbn [negb].
      destruct Hout as [(_ & Hbuf & _) | Hok]; [| congruence].
      rewrite (clear_restored ist ist6 Hbuf).
      apply op_extract_v4_block_failure, H4.
    + unfold op_extract_v4_block. rewrite Hbool. reflexivity.
Qed.

Lemma C10_witness :
  value_of (op_extract (istringstream "10.0.0.1/x") net_b) = net_b.
Proof.
  apply (proj2 C10_failed_parse_keeps_value (istringstream "10.0.0.1/x") net_b).
  - reflexivity.
  - reflexivity.
Defined.

(** ** Runs on concrete inputs *)

Example parse_ipv4_network :
  op_extract (istringstream "192.168.1.0/24") (ina_v6 null)
  = Returned (mk_istream "" true false false)
      (ina_v4 (make_network_address (make_address_v4 xc0 xa8 x01 x00) 24%N)).
Proof. vm_compute. reflexivity. Qed.

Example parse_ipv6_network :
  value_of (op_extract (istringstream "::1/128 rest") (ina_v4 null))
  = ina_v6 (make_network_address
      (make_address_v6 (x00, x00) (x00, x00) (x00, x00) (x00, x00)
                       (x00, x00) (x00, x00) (x00, x00) (x00, x01)) 128%N).
Proof. vm_compute. reflexivity. Qed.

Example format_ipv6_network :
  option_map (op_insert "")
    (match op_extract (istringstream "0:0:0:0:0:0:0:1/128") (ina_v4 null) with
     | Returned _ v => Some v
     | Thrown _ _ _ => None
     end)
  = Some "::1/128".
Proof. vm_compute. reflexivity. Qed.

Example contains_192_168_1_200 :
  has_address_ina
    (ina_v4 (make_network_address (make_address_v4 xc0 xa8 x01 x00) 24%N))
    (address_of_v4 (make_address_v4 xc0 xa8 x01 xc8)) = true
  /\ has_address_ina
    (ina_v4 (make_network_address (make_address_v4 xc0 xa8 x01 x00) 24%N))
    (address_of_v4 (make_address_v4 xc0 xa8 x02 x01)) = false.
Proof. split; vm_compute; reflexivity. Qed.

(** * Further properties *)

(** ** Containment as agreement of the leading bits *)

Lemma in_all_bytes (b : byte) : In b all_bytes.
Proof.
  unfold all_bytes. apply in_flat_map. exists (Byte.to_N b). split.
  - apply in_below. pose proof (Byte.to_N_bounded b). lia.
  - rewrite Byte.of_to_N. left. reflexivity.
Qed.

Lemma masks_compare_top_bits :
  forallb (fun count =>
    forallb (fun x => forallb (mask_compares_top_bits count x) all_bytes) all_bytes)
    (seq 1 7) = true.
Proof. vm_compute. reflexivity. Qed.

Lemma mask_compares_top_bits_all (count : nat) (x y : byte) :
  (1 <= count <= 7)%nat -> mask_compares_top_bits count x y = true.
Proof.
  intros Hcount. pose proof masks_compare_top_bits as Hall.
  rewrite forallb_forall in Hall.
  specialize (Hall count). rewrite forallb_forall in Hall.
  assert (Hin : In count (seq 1 7)) by (apply in_seq; lia).
  specialize (Hall Hin x (in_all_bytes x)).
  rewrite forallb_forall in Hall. apply Hall, in_all_bytes.
Qed.

Lemma top_bits_agree_iff (count : nat) (x y : byte) :
  top_bits_agree count x y = true
  <-> forall j, (j < count)%nat ->
        Z.testbit (byte_val x) (Z.of_nat (7 - j))
        = Z.testbit (byte_val y) (Z.of_nat (7 - j)).
Proof.
  unfold top_bits_agree. rewrite forallb_forall. split.
  - intros Hall j Hj. apply eqb_prop, Hall, in_seq. lia.
  - intros Hall j Hj%in_seq. rewrite (Hall j) by lia. apply eqb_reflx.
Qed.

Lemma byte_eqb_top_bits (x y : byte) : Byte.eqb x y = top_bits_agree 8 x y.
Proof.
  pose proof (mask_compares_top_bits_all 1 x y ltac:(lia)) as Hc.
  unfold mask_compares_top_bits in Hc.
  apply andb_prop in Hc as [_ Hc]. apply eqb_prop, Hc.
Qed.

Lemma mask_eqb_top_bits (n : N) (x y : byte) :
  (1 <= n < 8)%N ->
  (Z.land (byte_val x) (Z.shiftl 255 (8 - Z.of_N n))
   =? Z.land (byte_val y) (Z.shiftl 255 (8 - Z.of_N n)))%Z
  = top_bits_agree (N.to_nat n) x y.
Proof.
  intros Hn.
  pose proof (mask_compares_top_bits_all (N.to_nat n) x y ltac:(lia)) as Hc.
  unfold mask_compares_top_bits in Hc.
  apply andb_prop in Hc as [Hc _]. apply eqb_prop in Hc.
  rewrite <- Hc, N_nat_Z. reflexivity.
Qed.

Lemma address_bit_head (x : byte) (bytes : list byte) (k : nat) :
  (k < 8)%nat ->
  address_bit (x :: bytes) k = Z.testbit (byte_val x) (Z.of_nat (7 - k)).
Proof.
  intros Hk. unfold address_bit.
  rewrite (Nat.div_small k 8 Hk), (Nat.mod_small k 8 Hk). reflexivity.
Qed.

Lemma address_bit_tail (x : byte) (bytes : list byte) (k : nat) :
  address_bit (x :: bytes) (8 + k) = address_bit bytes k.
Proof.
  unfold address_bit.
  replace (8 + k)%nat with (k + 1 * 8)%nat by lia.
  rewrite Nat.div_add, Nat.Div0.mod_add by lia.
  rewrite Nat.add_1_r. reflexivity.
Qed.

(** The walk over the bytes succeeds exactly when the two addresses agree
    on each of the first [prefix_len] bits they have. *)
Lemma contains_spec_bits (net : list byte) :
  forall (addr : list byte) (prefix_len : N),
    List.length addr = List.length net ->
    contains_spec net addr prefix_len = true
    <-> forall k, (k < 8 * List.length net)%nat -> (N.of_nat k < prefix_len)%N ->
          address_bit net k = address_bit addr k.
Proof.
  induction net as [| x net IH]; intros addr prefix_len Hlen.
  - destruct addr; [| discriminate Hlen]. cbn. split; [intros _ k Hk | reflexivity]. lia.
  - destruct addr as [| y addr]; [discriminate Hlen |].
    simpl in Hlen. injection Hlen as Hlen.
    cbn [contains_spec List.length].
    destruct (8 <=? prefix_len)%N eqn:Hfull.
    + apply N.leb_le in Hfull.
      rewrite byte_eqb_top_bits.
      destruct (top_bits_agree 8 x y) eqn:Hhead.
      * rewrite (IH addr (prefix_len - 8)%N Hlen).
        rewrite top_bits_agree_iff in Hhead. split.
        -- intros Htail k Hk Hp. destruct (Nat.lt_ge_cases k 8) as [Hlow | Hhigh].
           ++ rewrite !address_bit_head by exact Hlow. apply Hhead, Hlow.
           ++ replace k with (8 + (k - 8))%nat by lia.
              rewrite !address_bit_tail. apply Htail; lia.
        -- intros Hall k Hk Hp.
           rewrite <- (address_bit_tail x net k), <- (address_bit_tail y addr k).
           apply Hall; lia.
      * split; [discriminate |]. intros Hall.
        rewrite <- Hhead. apply top_bits_agree_iff. intros j Hj.
        rewrite <- (address_bit_head x net j Hj), <- (address_bit_head y addr j Hj).
        apply Hall; lia.
    + apply N.leb_gt in Hfull.
      destruct (1 <=? prefix_len)%N eqn:Hsome.
      * apply N.leb_le in Hsome. cbv zeta.
        rewrite mask_eqb_top_bits by lia. rewrite top_bits_agree_iff. split.
        -- intros Hhead k Hk Hp.
           rewrite !address_bit_head by lia. apply Hhead. lia.
        -- intros Hall j Hj.
           assert (Hj8 : (j < 8)%nat) by lia.
           rewrite <- (address_bit_head x net j Hj8), <- (address_bit_head y addr j Hj8).
           apply Hall; lia.
      * apply N.leb_gt in Hsome. split; [| reflexivity].
        intros _ k Hk Hp. lia.
Qed.

Lemma has_address_bytes_bits (net addr : list byte) (prefix_len : N) :
  List.length addr = List.length net ->
  has_address_bytes net addr prefix_len = true
  <-> forall k, (k < 8 * List.length net)%nat -> (N.of_nat k < prefix_len)%N ->
        address_bit net k = address_bit addr k.
Proof.
  intros Hlen. rewrite (has_address_bytes_contains_spec net addr prefix_len Hlen).
  apply contains_spec_bits, Hlen.
Qed.

(** X1: a network contains an address exactly when the address agrees with
    the network's own address on each of the leading [prefix_length] bits
    (on all bits of the address when the prefix length exceeds their
    number), the bits counted from the most significant bit of the first
    byte. *)
Theorem X1_has_address_iff_leading_bits_agree
    {A : Type} `{AddressTypeLaws A}
    (self : base_ip_network_address A) (probe : A) :
  has_address self probe = true
  <-> forall k : nat,
        (k < 8 * bytes_size)%nat -> (N.of_nat k < prefix_length self)%N ->
        address_bit (to_bytes (address self)) k = address_bit (to_bytes probe) k.
Proof.
  unfold has_address.
  rewrite has_address_bytes_bits by (rewrite !to_bytes_size; reflexivity).
  rewrite to_bytes_size. reflexivity.
Qed.

Lemma X1_witness :
  has_address (make_network_address (make_address_v4 xc0 xa8 x10 x00) 20%N)
              (make_address_v4 xc0 xa8 x1f x07) = true
  <-> forall k : nat,
        (k < 8 * 4)%nat -> (N.of_nat k < 20)%N ->
        address_bit [xc0; xa8; x10; x00] k = address_bit [xc0; xa8; x1f; x07] k.
Proof.
  exact (X1_has_address_iff_leading_bits_agree
           (make_network_address (make_address_v4 xc0 xa8 x10 x00) 20%N)
           (make_address_v4 xc0 xa8 x1f x07)).
Defined.

Section ContainmentFacts.
Context {A : Type} `{AddressTypeLaws A}.

Lemma has_address_bits (a : A) (n : N) (probe : A) :
  has_address (make_network_address a n) probe = true
  <-> forall k : nat,
        (k < 8 * bytes_size)%nat -> (N.of_nat k < n)%N ->
        address_bit (to_bytes a) k = address_bit (to_bytes probe) k.
Proof.
  unfold has_address. cbn [address prefix_length].
  rewrite has_address_bytes_bits by (rewrite !to_bytes_size; reflexivity).
  rewrite to_bytes_size. reflexivity.
Qed.

End ContainmentFacts.

(** X2: a network contains its own address, and any address it contains
    names the same network: with the same prefix length, it contains the
    same addresses.  Containment under a fixed prefix length is thus an
    equivalence of addresses. *)
Theorem X2_contained_address_names_the_network
    {A : Type} `{AddressTypeLaws A} (a : A) (n : N) :
  has_address (make_network_address a n) a = true
  /\ forall b c : A,
       has_address (make_network_address a n) b = true ->
       has_address (make_network_address b n) c
       = has_address (make_network_address a n) c.
Proof.
  split.
  - apply has_address_bits. reflexivity.
  - intros b c Hb. rewrite has_address_bits in Hb.
    apply eq_true_iff_eq. rewrite !has_address_bits. split.
    + intros Hc k Hk Hn. rewrite (Hb k Hk Hn). apply Hc; assumption.
    + intros Hc k Hk Hn. rewrite <- (Hb k Hk Hn). apply Hc; assumption.
Qed.

Lemma X2_witness :
  has_address (make_network_address (make_address_v4 xc0 xa8 x01 x00) 24%N)
              (make_address_v4 xc0 xa8 x01 x00) = true
  /\ forall b c : address_v4,
       has_address (make_network_address (make_address_v4 xc0 xa8 x01 x00) 24%N) b
       = true ->
       has_address (make_network_address b 24%N) c
       = has_address (make_network_address (make_address_v4 xc0 xa8 x01 x00) 24%N) c.
Proof.
  exact (X2_contained_address_names_the_network
           (make_address_v4 xc0 xa8 x01 x00) 24%N).
Defined.

(** X3: a network whose own address lies in a network with a prefix that is
    no longer lies within that network, address by address; with the same
    address on both sides: shortening the prefix of a network removes no
    address from it. *)
Theorem X3_subnet_lies_within
    {A : Type} `{AddressTypeLaws A} (a b c : A) (wide narrow : N) :
  (wide <= narrow)%N ->
  has_address (make_network_address a wide) b = true ->
  has_address (make_network_address b narrow) c = true ->
  has_address (make_network_address a wide) c = true.
Proof.
  intros Hle Hb Hc. rewrite has_address_bits in Hb, Hc |- *.
  intros k Hk Hn. rewrite (Hb k Hk Hn). apply Hc; [exact Hk | lia].
Qed.

Lemma X3_witness :
  has_address (make_network_address (make_address_v4 x0a x00 x00 x00) 8%N)
              (make_address_v4 x0a x01 x02 x03) = true.
Proof.
  apply (X3_subnet_lies_within
           (make_address_v4 x0a x00 x00 x00) (make_address_v4 x0a x01 x02 x00)
           (make_address_v4 x0a x01 x02 x03) 8%N 24%N).
  - lia.
  - reflexivity.
  - reflexivity.
Defined.

(** ** Reading what was written, and more *)

Lemma read_while_token (accept : ascii -> bool) (buf : string) :
  forall token rest eof,
    read_while accept buf = (token, rest, eof) ->
    string_forall accept token = true.
Proof.
  induction buf as [| c buf IH]; intros token rest eof.
  - cbn. intros [= <- _ _]. reflexivity.
  - cbn. destruct (accept c) eqn:Hc.
    + destruct (read_while accept buf) as [[token' rest'] eof'].
      intros [= <- _ _]. cbn. rewrite Hc. apply (IH token' rest' eof'). reflexivity.
    + intros [= <- _ _]. reflexivity.
Qed.

Lemma read_while_until (accept : ascii -> bool) (token rest : string) :
  string_forall accept token = true ->
  match rest with
  | EmptyString => True
  | String c _ => accept c = false
  end ->
  read_while accept (token ++ rest)
  = (token, rest, match rest with EmptyString => true | String _ _ => false end).
Proof.
  intros Htoken Hrest. destruct rest as [| c rest].
  - rewrite append_nil_r. apply read_while_all, Htoken.
  - apply read_while_stop; assumption.
Qed.

Section FormatFacts.
Context {A : Type} `{AddressTypeLaws A}.

(** The two readers on the text of [operator<<], followed by [rest]. *)
Lemma read_ip_address_prefix_length_format
    (a : A) (n : N) (rest ip0 pl0 : string) :
  ends_prefix_length rest ->
  read_ip_address_prefix_length (A := A)
    (istringstream (format (make_network_address a n) ++ rest)) ip0 pl0
  = (left_unread rest, to_string a, dec n).
Proof.
  intros Hrest.
  unfold format, op_insert_base. cbn [address prefix_length].
  change ("" ++ to_string a ++ "/" ++ dec n) with (to_string a ++ String "/" (dec n)).
  rewrite append_assoc. change (String "/" (dec n) ++ rest) with (String "/" (dec n ++ rest)).
  unfold read_ip_address_prefix_length, read_ip_address.
  cbn [istringstream good rdbuf eofbit failbit badbit orb negb].
  rewrite (read_while_stop _ (to_string a) "/" (dec n ++ rest)
             (to_string_characters a) slash_is_not_an_address_character).
  rewrite from_string_to_string.
  cbn [to_bool fail good peek ignore rdbuf eofbit failbit badbit orb negb
       is_slash fst snd].
  rewrite Ascii.eqb_refl.
  unfold read_prefix_length.
  cbn [good rdbuf eofbit failbit badbit orb negb].
  rewrite (read_while_until is_digit (dec n) rest (dec_digits n) Hrest).
  destruct (dec n) as [| c digits] eqn:Hdec; [now apply dec_not_empty in Hdec |].
  reflexivity.
Qed.


End FormatFacts.

(** X4: text that follows the prefix length is left unread.  When the text
    of a network address is followed by a character that is no digit, the
    extraction yields the address, and the stream is good and holds that
    character and all that comes after it. *)
Theorem X4_trailing_text_is_left_unread
    {A : Type} `{AddressTypeLaws A}
    (v previous : base_ip_network_address A) (c : ascii) (rest : string) :
  (prefix_length v <= UINT_MAX)%N ->
  is_digit c = false ->
  op_extract_base (istringstream (format v ++ String c rest)) previous
  = Returned (istringstream (String c rest)) v.
Proof.
  intros Hrange Hc. destruct v as [a n]. cbn [prefix_length] in Hrange.
  unfold op_extract_base.
  rewrite (read_ip_address_prefix_length_format a n (String c rest) "" "" Hc).
  cbn [left_unread to_bool fail failbit badbit orb negb].
  rewrite from_string_to_string, (lexical_cast_dec n Hrange). reflexivity.
Qed.

Lemma X4_witness :
  op_extract_base
    (istringstream
       (format (make_network_address (make_address_v4 x0a x00 x00 x00) 8%N)
        ++ " via 10.0.0.1"))
    null
  = Returned (istringstream " via 10.0.0.1")
      (make_network_address (make_address_v4 x0a x00 x00 x00) 8%N).
Proof.
  apply (X4_trailing_text_is_left_unread
           (make_network_address (make_address_v4 x0a x00 x00 x00) 8%N) null
           " " "via 10.0.0.1").
  - vm_compute. discriminate.
  - reflexivity.
Defined.

(** ** What a successful extraction has read *)

Lemma read_while_rest (accept : ascii -> bool) (buf : string) :
  forall token rest eof,
    read_while accept buf = (token, rest, eof) ->
    match rest with
    | EmptyString => True
    | String c _ => accept c = false
    end.
Proof.
  induction buf as [| c buf IH]; intros token rest eof.
  - cbn. intros [= _ <- _]. exact I.
  - cbn. destruct (accept c) eqn:Hc.
    + destruct (read_while accept buf) as [[token' rest'] eof'] eqn:Hread.
      intros [= _ <- _]. apply (IH token' rest' eof'). reflexivity.
    + intros [= _ <- _]. exact Hc.
Qed.

Lemma lexical_cast_unsigned_int_range (s : string) (n : N) :
  lexical_cast_unsigned_int s = Some n -> (n <= UINT_MAX)%N.
Proof.
  unfold lexical_cast_unsigned_int.
  destruct (DecimalString.NilZero.uint_of_string s) as [d |]; [| discriminate].
  cbv zeta. destruct (N.of_uint d <=? UINT_MAX)%N eqn:Hle; [| discriminate].
  intros [= <-]. apply N.leb_le, Hle.
Qed.

Section SuccessFacts.
Context {A : Type} `{AddressType A}.

Lemma read_ip_address_prefix_length_success
    (ist ist' : istream) (ip0 pl0 ip pl : string) :
  good ist = true ->
  read_ip_address_prefix_length (A := A) ist ip0 pl0 = (ist', ip, pl) ->
  fail ist' = false ->
  rdbuf ist = ip ++ String "/" (pl ++ rdbuf ist')
  /\ string_forall is_ip_address_character ip = true
  /\ (exists a : A, from_string ip = Some a)
  /\ pl <> ""
  /\ string_forall is_digit pl = true
  /\ ends_prefix_length (rdbuf ist').
Proof.
  intros Hgood. unfold read_ip_address_prefix_length, read_ip_address.
  rewrite Hgood.
  destruct (read_while is_ip_address_character (rdbuf ist))
    as [[token rest] eof] eqn:Hread1.
  destruct (from_string token) as [a |] eqn:Hfrom;
    [| cbn; intros [= <- _ _]; discriminate].
  destruct eof; [cbn; intros [= <- _ _]; discriminate |].
  destruct rest as [| c rest]; [cbn; intros [= <- _ _]; discriminate |].
  cbn [to_bool fail good peek rdbuf eofbit failbit badbit orb negb is_slash].
  destruct (Ascii.eqb_spec c "/") as [-> | Hc];
    [| cbn; intros [= <- _ _]; discriminate].
  unfold read_prefix_length.
  cbn [ignore good rdbuf eofbit failbit badbit orb negb].
  destruct (read_while is_digit rest) as [[digits rest'] eof'] eqn:Hread2.
  destruct digits as [| d digits]; [cbn; intros [= <- _ _]; discriminate |].
  cbn [to_bool fail failbit badbit orb negb].
  intros [= <- <- <-] _. cbn [rdbuf].
  pose proof (read_while_splits _ _ _ _ _ Hread1) as Hsplit1.
  pose proof (read_while_splits _ _ _ _ _ Hread2) as Hsplit2.
  repeat split.
  - rewrite Hsplit2. symmetry. exact Hsplit1.
  - apply (read_while_token _ _ _ _ _ Hread1).
  - exists a. exact Hfrom.
  - discriminate.
  - apply (read_while_token _ _ _ _ _ Hread2).
  - apply (read_while_rest _ _ _ _ _ Hread2).
Qed.

End SuccessFacts.

(** X5: an extraction that succeeds on a good stream has read exactly an
    address text, a [/] and a run of digits: the address of the value is the
    one [from_string] makes of the address text, its prefix length the
    number the digits write, at most [UINT_MAX]; the digits are all there
    are, the unread text not starting with one. *)
Theorem X5_successful_parse_reads_the_grammar
    {A : Type} `{AddressType A}
    (ist ist' : istream) (previous v : base_ip_network_address A) :
  good ist = true ->
  op_extract_base ist previous = Returned ist' v ->
  fail ist' = false ->
  exists address_text prefix_text : string,
    rdbuf ist = address_text ++ "/" ++ prefix_text ++ rdbuf ist'
    /\ string_forall is_ip_address_character address_text = true
    /\ from_string address_text = Some (address v)
    /\ prefix_text <> ""
    /\ string_forall is_digit prefix_text = true
    /\ lexical_cast_unsigned_int prefix_text = Some (prefix_length v)
    /\ (prefix_length v <= UINT_MAX)%N
    /\ ends_prefix_length (rdbuf ist').
Proof.
  intros Hgood Hret Hfail. unfold op_extract_base in Hret.
  destruct (read_ip_address_prefix_length ist "" "") as [[ist1 ip] pl] eqn:Hread.
  destruct (to_bool ist1) eqn:Hbool.
  - destruct (from_string ip) as [a |] eqn:Hfrom; [| discriminate].
    destruct (lexical_cast_unsigned_int pl) as [n |] eqn:Hcast; [| discriminate].
    injection Hret as <- <-.
    destruct (read_ip_address_prefix_length_success ist ist1 "" "" ip pl
                Hgood Hread Hfail)
      as (Hbuf & Hchars & _ & Hne & Hdigits & Hend).
    exists ip, pl. cbn [address prefix_length].
    repeat split; try assumption.
    apply (lexical_cast_unsigned_int_range pl n Hcast).
  - injection Hret as <- _. unfold to_bool in Hbool.
    rewrite Hfail in Hbool. discriminate.
Qed.

Lemma X5_witness :
  exists address_text prefix_text : string,
    "10.0.0.0/8 via 10.0.0.1" = address_text ++ "/" ++ prefix_text ++ " via 10.0.0.1"
    /\ string_forall is_character_v4 address_text = true
    /\ from_string_v4 address_text = Some (make_address_v4 x0a x00 x00 x00)
    /\ prefix_text <> ""
    /\ string_forall is_digit prefix_text = true
    /\ lexical_cast_unsigned_int prefix_text = Some 8%N
    /\ (8 <= UINT_MAX)%N
    /\ ends_prefix_length " via 10.0.0.1".
Proof.
  exact (X5_successful_parse_reads_the_grammar
           (istringstream "10.0.0.0/8 via 10.0.0.1")
           (istringstream " via 10.0.0.1") null
           (make_network_address (make_address_v4 x0a x00 x00 x00) 8%N)
           eq_refl eq_refl eq_refl).
Defined.

(** ** The variant read back *)











(** ** A stream that is not good when the extraction starts *)

(** X7: a stream that is not good is not read.  When it has failed, both
    operators return at once, stream and value as they were.  When only its
    [eofbit] is set it still tests as true, so the operators go on to build
    an address from the empty text they hold, and an exception leaves them,
    stream and value as they were. *)
Theorem X7_stream_not_good_is_not_read (ist : istream) :
  good ist = false ->
  (fail ist = true ->
     (forall (A : Type) (AT : AddressType A) (v : base_ip_network_address A),
        op_extract_base ist v = Returned ist v)
     /\ (forall u : ip_network_address, op_extract ist u = Returned ist u))
  /\ (fail ist = false ->
        (forall v : ipv4_network_address,
           exists e, op_extract_base ist v = Thrown e ist v)
        /\ (forall v : ipv6_network_address,
              exists e, op_extract_base ist v = Thrown e ist v)
        /\ (forall u : ip_network_address,
              exists e, op_extract ist u = Thrown e ist u)).
Proof.
  intros Hgood. split; intros Hfail.
  - assert (Hbase : forall (A : Type) (AT : AddressType A)
                           (v : base_ip_network_address A),
               op_extract_base ist v = Returned ist v).
    { intros A AT v. unfold op_extract_base, read_ip_address_prefix_length.
      rewrite Hgood. unfold to_bool. rewrite Hfail. reflexivity. }
    split; [exact Hbase |].
    intros u. unfold op_extract, op_extract_v4_block, to_bool.
    rewrite Hfail. reflexivity.
  - assert (H4 : forall v : ipv4_network_address,
               op_extract_base ist v = Thrown system_error ist v).
    { intros v. unfold op_extract_base, read_ip_address_prefix_length.
      rewrite Hgood. unfold to_bool. rewrite Hfail. reflexivity. }
    assert (H6 : forall v : ipv6_network_address,
               op_extract_base ist v = Thrown system_error ist v).
    { intros v. unfold op_extract_base, read_ip_address_prefix_length.
      rewrite Hgood. unfold to_bool. rewrite Hfail. reflexivity. }
    split; [| split].
    + intros v. exists system_error. apply H4.
    + intros v. exists system_error. apply H6.
    + intros u. exists system_error. unfold op_extract, to_bool.
      rewrite Hfail, H6. reflexivity.
Qed.

Lemma X7_witness :
  exists e,
    op_extract (mk_istream "" true false false) net_b
    = Thrown e (mk_istream "" true false false) net_b.
Proof.
  apply (proj2 (X7_stream_not_good_is_not_read
                  (mk_istream "" true false false) eq_refl) eq_refl).
Defined.

(** ** The membership helper: what it decides *)

Section RangeDecides.
Context {NetworkAddress Address : Type}.
Variable contains : NetworkAddress -> Address -> bool.

Lemma has_address_range_exists (range : list NetworkAddress) (addr : Address) :
  has_address_range contains range addr = true
  <-> exists ina, In ina range /\ contains ina addr = true.
Proof.
  induction range as [| x range IH].
  - cbn. split; [discriminate | intros (ina & [] & _)].
  - cbn. destruct (contains x addr) eqn:Hx.
    + split; [| reflexivity]. intros _. exists x. split; [left; reflexivity | exact Hx].
    + rewrite IH. split.
      * intros (ina & Hin & Hina). exists ina. split; [right; exact Hin | exact Hina].
      * intros (ina & [<- | Hin] & Hina); [congruence |].
        exists ina. split; assumption.
Qed.

End RangeDecides.

(** X8: the membership helper returns [true] exactly when some element of
    the sequence contains the probe; what it returns therefore does not
    change with the order of the sequence, and for two sequences one after
    the other it is the disjunction of what it returns for each. *)
Theorem X8_membership_is_existence
    {NetworkAddress Address : Type}
    (contains : NetworkAddress -> Address -> bool) (addr : Address) :
  (forall range,
     has_address_range contains range addr = true
     <-> exists ina, In ina range /\ contains ina addr = true)
  /\ (forall range range',
        Permutation range range' ->
        has_address_range contains range addr
        = has_address_range contains range' addr)
  /\ (forall range range',
        has_address_range contains (range ++ range') addr
        = has_address_range contains range addr
          || has_address_range contains range' addr).
Proof.
  split; [intros range; apply has_address_range_exists |]. split.
  - intros range range' Hperm. apply eq_true_iff_eq.
    rewrite !has_address_range_exists. split.
    + intros (ina & Hin & Hina). exists ina. split; [| exact Hina].
      apply (Permutation_in ina Hperm Hin).
    + intros (ina & Hin & Hina). exists ina. split; [| exact Hina].
      apply (Permutation_in ina (Permutation_sym Hperm) Hin).
  - intros range range'. induction range as [| x range IH]; [reflexivity |].
    cbn. destruct (contains x addr); [reflexivity | exact IH].
Qed.

Lemma X8_witness :
  has_address_range has_address_ina [net_a; net_b; net_c] probe_b
  = has_address_range has_address_ina [net_c; net_b; net_a] probe_b.
Proof.
  apply (proj1 (proj2 (X8_membership_is_existence has_address_ina probe_b))).
  apply (perm_trans (l' := [net_b; net_a; net_c])).
  - apply perm_swap.
  - apply (perm_trans (l' := [net_b; net_c; net_a])).
    + apply perm_skip, perm_swap.
    + apply perm_swap.
Defined.

(** ** The operator on the variant, case by case *)

(** X10: when the operator on the variant returns, either it has assigned
    the result of a family parse that succeeded -- the IPv6 parse of the
    stream, or else the IPv4 parse of the stream with its state cleared --
    and the stream is the one that parse left; or it has assigned nothing
    and the stream holds the characters it held before. *)
Theorem X10_variant_extraction_is_all_or_nothing
    (ist ist' : istream) (value value' : ip_network_address) :
  op_extract ist value = Returned ist' value' ->
  (value' = value /\ rdbuf ist' = rdbuf ist)
  \/ (exists ina : ipv6_network_address,
        value' = ina_v6 ina /\ fail ist' = false
        /\ op_extract_base ist null = Returned ist' ina)
  \/ (exists ina : ipv4_network_address,
        value' = ina_v4 ina /\ fail ist' = false
        /\ op_extract_base (clear ist) null = Returned ist' ina).
Proof.
  unfold op_extract.
  assert (Hblock : forall ist0,
             rdbuf ist0 = rdbuf ist ->
             to_bool ist0 = true ->
             op_extract_v4_block ist0 value = Returned ist' value' ->
             (value' = value /\ rdbuf ist' = rdbuf ist)
             \/ (exists ina : ipv4_network_address,
                   value' = ina_v4 ina /\ fail ist' = false
                   /\ op_extract_base ist0 null = Returned ist' ina)).
  { intros ist0 Hbuf0 Hbool0. unfold op_extract_v4_block. rewrite Hbool0.
    pose proof (op_extract_base_outcome ist0 (null (A := address_v4))) as Hout.
    destruct (op_extract_base ist0 null) as [ist4 ina | e ist4 ina]; [| discriminate].
    destruct (to_bool ist4) eqn:Hbool4.
    - intros [= <- <-]. right. exists ina. repeat split.
      unfold to_bool in Hbool4. now apply negb_true_iff in Hbool4.
    - intros [= <- <-]. left. split; [reflexivity |].
      destruct Hout as [(_ & Hbuf4 & _) | Hok].
      + cbn [clear rdbuf]. congruence.
      + unfold to_bool in Hbool4. rewrite Hok in Hbool4. discriminate. }
  destruct (to_bool ist) eqn:Hbool.
  - pose proof (op_extract_base_outcome ist (null (A := address_v6))) as Hout.
    destruct (op_extract_base ist null) as [ist6 ina | e ist6 ina]; [| discriminate].
    destruct (to_bool ist6) eqn:Hbool6.
    + intros [= <- <-]. right. left. exists ina. repeat split.
      unfold to_bool in Hbool6. now apply negb_true_iff in Hbool6.
    + destruct Hout as [(_ & Hbuf6 & _) | Hok];
        [| unfold to_bool in Hbool6; rewrite Hok in Hbool6; discriminate].
      rewrite (clear_restored ist ist6 Hbuf6). intros Hrun.
      destruct (Hblock (clear ist) eq_refl eq_refl Hrun) as [Hnone | Hv4].
      * left. exact Hnone.
      * right. right. exact Hv4.
  - unfold op_extract_v4_block. rewrite Hbool. intros [= <- <-].
    left. split; reflexivity.
Qed.

Lemma X10_witness :
  (net_b = net_b /\ rdbuf (istringstream "10.0.0.1/x") = "10.0.0.1/x")
  \/ (exists ina : ipv6_network_address,
        net_b = ina_v6 ina /\ fail (istringstream "10.0.0.1/x") = false
        /\ op_extract_base (istringstream "10.0.0.1/x") null
           = Returned (istringstream "10.0.0.1/x") ina)
  \/ (exists ina : ipv4_network_address,
        net_b = ina_v4 ina /\ fail (istringstream "10.0.0.1/x") = false
        /\ op_extract_base (clear (istringstream "10.0.0.1/x")) null
           = Returned (istringstream "10.0.0.1/x") ina).
Proof.
  apply (X10_variant_extraction_is_all_or_nothing
           (istringstream "10.0.0.1/x") (istringstream "10.0.0.1/x") net_b net_b).
  reflexivity.
Defined.

(** ** Equality and the null network *)








(** ** The values decoded from a response *)

Lemma string_compare_refl (s : string) : String.compare s s = Eq.
Proof.
  pose proof (String.compare_antisym s s) as Hanti.
  destruct (String.compare s s); [reflexivity | discriminate | discriminate].
Qed.

(** Lookup after [values[key] = value]. *)
Lemma values_find_assign (values : values_type) (key value key' : string) :
  values_find (values_assign values key value) key'
  = if String.eqb key key' then Some value else values_find values key'.
Proof.
  induction values as [| [k v] values IH].
  - reflexivity.
  - cbn [values_assign]. destruct (String.compare key k) eqn:Hcmp.
    + apply String.compare_eq_iff in Hcmp. subst k. cbn [values_find].
      destruct (String.eqb key key'); reflexivity.
    + cbn [values_find]. destruct (String.eqb key key'); reflexivity.
    + cbn [values_find]. rewrite IH.
      destruct (String.eqb k key') eqn:Hk; [| reflexivity].
      apply String.eqb_eq in Hk. subst key'.
      rewrite (proj2 (String.eqb_neq key k)); [reflexivity |].
      intros ->. rewrite string_compare_refl in Hcmp. discriminate.
Qed.

Lemma json_to_values_members_find
    (members : list (string * json_value)) :
  forall (values : values_type) (key : string),
    values_find (state_of (json_to_values_members members values)) key
    = fold_left (fun found entry =>
                   if String.eqb (fst entry) key then Some (snd entry) else found)
                (stored_members members) (values_find values key).
Proof.
  induction members as [| [name value] members IH]; intros values key.
  - reflexivity.
  - destruct value as [characters |]; [| reflexivity].
    cbn [json_to_values_members stored_members fold_left fst snd].
    rewrite IH, values_find_assign. reflexivity.
Qed.

Lemma json_to_values_members_completes
    (members : list (string * json_value)) :
  forall values : values_type,
    (exists values', json_to_values_members members values = Completed values')
    <-> all_strings members = true.
Proof.
  induction members as [| [name value] members IH]; intros values.
  - cbn. split; [reflexivity | intros _; exists values; reflexivity].
  - destruct value as [characters |].
    + cbn [json_to_values_members all_strings forallb snd andb]. apply IH.
    + cbn. split; [intros [values' Hc]; discriminate | discriminate].
Qed.

Lemma json_to_values_members_fails
    (before : list (string * json_value)) (name : string)
    (after : list (string * json_value)) :
  all_strings before = true ->
  forall values : values_type,
    exists state,
      json_to_values_members (before ++ (name, json_not_a_string) :: after) values
      = Failed ("JSON document parse error: values must be strings ("
                ++ c_str name ++ ").") state.
Proof.
  induction before as [| [n v] before IH]; intros Hall values.
  - exists values. reflexivity.
  - destruct v as [characters |]; [| discriminate Hall].
    cbn [app json_to_values_members]. apply IH. exact Hall.
Qed.

(** X11: after [json_to_values], whatever the map held before, it holds
    under a key the value of the last member of that name among the members
    up to the first whose value is not a string -- all of them when the call
    completes -- and nothing when the text does not parse or its root is no
    object.  Names and values end at their first NUL. *)
Theorem X11_json_to_values_stores_the_last_member
    (Parse : string -> json_document)
    (json : string) (values : values_type) (key : string) :
  values_find (state_of (json_to_values Parse json values)) key
  = match Parse (c_str json) with
    | json_object members => last_value (stored_members members) key
    | json_parse_error | json_not_an_object => None
    end.
Proof.
  unfold json_to_values.
  destruct (Parse (c_str json)) as [| | members]; [reflexivity | reflexivity |].
  rewrite json_to_values_members_find. reflexivity.
Qed.

(** X12: [json_to_values] completes exactly when the text parses to an
    object all of whose members have strings for values; the first member
    whose value is not a string makes it throw, with that member's name in
    the message. *)
Theorem X12_json_to_values_completes_on_string_objects
    (Parse : string -> json_document) (json : string) (values : values_type) :
  ((exists values', json_to_values Parse json values = Completed values')
   <-> exists members,
         Parse (c_str json) = json_object members /\ all_strings members = true)
  /\ (forall before name after,
        Parse (c_str json) = json_object (before ++ (name, json_not_a_string) :: after) ->
        all_strings before = true ->
        exists state,
          json_to_values Parse json values
          = Failed ("JSON document parse error: values must be strings ("
                    ++ c_str name ++ ").") state).
Proof.
  unfold json_to_values. split.
  - destruct (Parse (c_str json)) as [| | members].
    + split; [intros [values' Hc]; discriminate | intros (members & Hp & _); discriminate].
    + split; [intros [values' Hc]; discriminate | intros (members & Hp & _); discriminate].
    + rewrite json_to_values_members_completes. split.
      * intros Hall. exists members. split; [reflexivity | exact Hall].
      * intros (members' & [= <-] & Hall). exact Hall.
  - intros before name after -> Hall.
    apply json_to_values_members_fails, Hall.
Qed.

(** X13: on the values decoded from an object, [assert_has_value] gives the
    value of the last member of the name asked for, and when the object has
    no member of that name it throws "Missing required value" with the name
    between quotes, the output argument as it was. *)
Theorem X13_assert_has_value_on_decoded_values
    (Parse : string -> json_document)
    (json : string) (previous values : values_type)
    (members : list (string * json_value)) (key value : string) :
  Parse (c_str json) = json_object members ->
  json_to_values Parse json previous = Completed values ->
  assert_has_value values key value
  = match last_value (stored_members members) key with
    | Some found => Completed found
    | None =>
        Failed ("Missing required value " ++ double_quote ++ key
                ++ double_quote ++ ".") value
    end.
Proof.
  intros Hparse Hdone.
  pose proof (json_to_values_members_find members [] key) as Hfind.
  unfold json_to_values in Hdone. rewrite Hparse in Hdone.
  rewrite Hdone in Hfind. cbn [state_of values_find] in Hfind.
  unfold assert_has_value, has_value. rewrite Hfind.
  fold (last_value (stored_members members) key).
  destruct (last_value (stored_members members) key); reflexivity.
Qed.

Lemma X13_witness :
  assert_has_value [("major", "2"); ("name", "freelan")] "major" ""
  = Completed "2"
  /\ assert_has_value [("major", "2"); ("name", "freelan")] "minor" "unset"
     = Failed ("Missing required value " ++ double_quote ++ "minor"
               ++ double_quote ++ ".") "unset".
Proof.
  split.
  - exact (X13_assert_has_value_on_decoded_values sample_parse "{}"
             [("stale", "x")] [("major", "2"); ("name", "freelan")]
             _ "major" "" eq_refl eq_refl).
  - exact (X13_assert_has_value_on_decoded_values sample_parse "{}"
             [("stale", "x")] [("major", "2"); ("name", "freelan")]
             _ "minor" "unset" eq_refl eq_refl).
Defined.

Lemma X12_witness :
  exists state,
    json_to_values
      sample_parse_number
      "{}" [("stale", "x")]
    = Failed "JSON document parse error: values must be strings (major)." state.
Proof.
  apply (proj2 (X12_json_to_values_completes_on_string_objects
                  sample_parse_number
                  "{}" [("stale", "x")])
           [("name", json_string "freelan")] "major" []).
  - reflexivity.
  - reflexivity.
Defined.

(** ** Texts tell the networks apart *)




